(** * LLMSuperScripter: the snapshot / execute / rollback loop and the LLM facade

    A shallow embedding of [src/core/superuser_assistant.py] and
    [src/core/llm_interface.py].  The Python methods become functions in a
    state-and-exception monad over a [World] that holds everything the code
    talks to: the file system, the registry tool, the process runner, the
    operator at the terminal, the clock and the log. *)

From Stdlib Require Import ZArith Ascii Sorted DecimalString.
From Stdlib Require String.
From stdpp Require Import gmap strings list fin_maps.

Local Open Scope Z_scope.
Set Warnings "-register-all".

(** ** Python strings

    A Python [str] is modelled by the byte string of its UTF-8 encoding;
    byte-wise lexicographic order on UTF-8 is code point order, which is the
    order Python's [<] uses on [str]. *)

Module Str.

Definition dquote : ascii := ascii_of_nat 34.
Definition q : string := String dquote EmptyString.
Definition nl : string := String (ascii_of_nat 10) EmptyString.

(** [str.lower()], on the ASCII letters.  The callers only test the result
    against ["yes"] and ["y"]; no other code point lowercases to one of
    [y], [e], [s], so the test has the same outcome as with the full
    Unicode mapping. *)
Definition lower_char (c : ascii) : ascii :=
  let n := nat_of_ascii c in
  if ((65 <=? n)%nat && (n <=? 90)%nat)%bool then ascii_of_nat (n + 32) else c.

Fixpoint lower (s : string) : string :=
  match s with
  | EmptyString => EmptyString
  | String c s' => String (lower_char c) (lower s')
  end.

(** [x in [a, b, ...]] on strings. *)
Definition mem (x : string) (l : list string) : bool :=
  existsb (String.eqb x) l.

Fixpoint join (sep : string) (l : list string) : string :=
  match l with
  | [] => ""
  | [x] => x
  | x :: l' => x +:+ sep +:+ join sep l'
  end.

Definition of_Z (z : Z) : string := NilZero.string_of_int (Z.to_int z).

Definition digit (d : nat) : ascii := ascii_of_nat (48 + d mod 10).

(** Zero-padded decimal fields, as [strftime] prints them. *)
Definition pad2 (n : nat) : string :=
  String (digit (n / 10)) (String (digit n) EmptyString).
Definition pad4 (n : nat) : string :=
  String (digit (n / 1000)) (String (digit (n / 100)) (pad2 n)).

(** Python truthiness of a string. *)
Definition truthy (s : string) : bool := negb (String.eqb s "").

End Str.

(** ** pathlib

    A [Path] is the list of its components below the root (POSIX flavour).
    [..] components and symbolic links are not resolved: pathlib keeps them
    as they are, and so does the model. *)

Abbreviation path := (list string).

Module Path.

Definition slash : ascii := "/"%char.

(** [s.split("/")] *)
Fixpoint split_slash (s : string) : list string :=
  match s with
  | EmptyString => [EmptyString]
  | String c s' =>
      if Ascii.eqb c slash then EmptyString :: split_slash s'
      else match split_slash s' with
           | h :: t => String c h :: t
           | [] => [String c EmptyString]
           end
  end.

Definition keep_part (c : string) : bool :=
  negb (String.eqb c "" || String.eqb c ".").

(** The components pathlib keeps of a string: empty ones and [.] go. *)
Definition parts (s : string) : path := List.filter keep_part (split_slash s).

Definition is_absolute (s : string) : bool :=
  match s with
  | String c _ => Ascii.eqb c slash
  | EmptyString => false
  end.

(** [base / s]: an absolute right operand replaces the left one. *)
Definition join (base : path) (s : string) : path :=
  if is_absolute s then parts s else base ++ parts s.

(** [p.name] *)
Definition name (p : path) : string := List.last p "".

(** [p.parent] *)
Definition parent (p : path) : path := removelast p.

(** [str(p)] *)
Definition str (p : path) : string := "/" +:+ Str.join "/" p.

End Path.

Infix "//" := Path.join (at level 40, left associativity).

(** ** JSON values, as [json.load] builds them *)

Inductive json :=
| JNull
| JBool (b : bool)
| JInt (z : Z)
| JFloat (lexeme : string)
| JStr (s : string)
| JList (l : list json)
| JDict (d : list (string * json)).

Module Dict.

(** [d[k] = v] on an insertion-ordered dict: an existing key keeps its
    place. *)
Fixpoint set (d : list (string * json)) (k : string) (v : json) : list (string * json) :=
  match d with
  | [] => [(k, v)]
  | (k', v') :: d' =>
      if String.eqb k k' then (k, v) :: d' else (k', v') :: set d' k v
  end.

Fixpoint get (d : list (string * json)) (k : string) : option json :=
  match d with
  | [] => None
  | (k', v) :: d' => if String.eqb k k' then Some v else get d' k
  end.

End Dict.

(** ** [json.loads]

    The grammar CPython's decoder accepts: RFC 8259 plus [NaN], [Infinity]
    and [-Infinity], strings in strict mode.  [None] stands for
    [JSONDecodeError]; the position and wording of the error are not
    modelled. *)

Module Json.

Definition is_ws (c : ascii) : bool :=
  (Ascii.eqb c " " || Ascii.eqb c (ascii_of_nat 9)
   || Ascii.eqb c (ascii_of_nat 10) || Ascii.eqb c (ascii_of_nat 13))%bool.

Fixpoint skip_ws (s : string) : string :=
  match s with
  | String c s' => if is_ws c then skip_ws s' else s
  | EmptyString => s
  end.

Definition is_digit (c : ascii) : bool :=
  let n := nat_of_ascii c in ((48 <=? n)%nat && (n <=? 57)%nat)%bool.

Fixpoint strip_prefix (p s : string) : option string :=
  match p, s with
  | EmptyString, _ => Some s
  | String a p', String b s' => if Ascii.eqb a b then strip_prefix p' s' else None
  | String _ _, EmptyString => None
  end.

(** The longest run of digits at the front of [s], and what follows. *)
Fixpoint span_digits (s : string) : string * string :=
  match s with
  | String c s' =>
      if is_digit c then let '(d, r) := span_digits s' in (String c d, r)
      else (EmptyString, s)
  | EmptyString => (EmptyString, s)
  end.

Fixpoint digits_value (acc : Z) (s : string) : Z :=
  match s with
  | String c s' => digits_value (10 * acc + Z.of_nat (nat_of_ascii c - 48)) s'
  | EmptyString => acc
  end.

(** The integer part: an optional minus sign, then [0] or a run of digits
    that does not start with [0]. *)
Definition match_int (s : string) : option (bool * string * string) :=
  let '(neg, s1) := match s with
                    | String "-" s' => (true, s')
                    | _ => (false, s)
                    end in
  match s1 with
  | String "0" s2 => Some (neg, "0", s2)
  | String c _ =>
      if is_digit c then let '(d, r) := span_digits s1 in Some (neg, d, r)
      else None
  | EmptyString => None
  end.

(** The optional fraction: a dot and at least one digit. *)
Definition match_frac (s : string) : string * string :=
  match s with
  | String "." s' =>
      match span_digits s' with
      | (EmptyString, _) => (EmptyString, s)
      | (d, r) => (String "." d, r)
      end
  | _ => (EmptyString, s)
  end.

(** The optional exponent: [e] or [E], an optional sign, at least one
    digit. *)
Definition match_exp (s : string) : string * string :=
  match s with
  | String e s' =>
      if (Ascii.eqb e "e" || Ascii.eqb e "E")%bool then
        let '(sign, s2) := match s' with
                           | String "+" s2 => ("+", s2)
                           | String "-" s2 => ("-", s2)
                           | _ => (EmptyString, s')
                           end in
        match span_digits s2 with
        | (EmptyString, _) => (EmptyString, s)
        | (d, r) => (String e (sign +:+ d), r)
        end
      else (EmptyString, s)
  | EmptyString => (EmptyString, s)
  end.

Definition match_number (s : string) : option (json * string) :=
  match match_int s with
  | None => None
  | Some (neg, d, r) =>
      let '(frac, r1) := match_frac r in
      let '(ex, r2) := match_exp r1 in
      let sign := if neg : bool then "-" else EmptyString in
      match frac, ex with
      | EmptyString, EmptyString =>
          Some (JInt (if neg then - digits_value 0 d else digits_value 0 d), r2)
      | _, _ => Some (JFloat (sign +:+ d +:+ frac +:+ ex), r2)
      end
  end.

Definition hex_value (c : ascii) : option N :=
  let n := N_of_ascii c in
  if ((48 <=? n) && (n <=? 57))%N then Some (n - 48)%N
  else if ((65 <=? n) && (n <=? 70))%N then Some (n - 55)%N
  else if ((97 <=? n) && (n <=? 102))%N then Some (n - 87)%N
  else None.

(** Four hexadecimal digits after [\u]. *)
Definition hex4 (s : string) : option (N * string) :=
  match s with
  | String a (String b (String c (String d r))) =>
      match hex_value a, hex_value b, hex_value c, hex_value d with
      | Some x, Some y, Some z, Some w => Some (((x * 16 + y) * 16 + z) * 16 + w, r)%N
      | _, _, _, _ => None
      end
  | _ => None
  end.

Definition byte (n : N) : string := String (ascii_of_N n) EmptyString.

(** [chr(cp)], in UTF-8. *)
Definition chr (cp : N) : string :=
  (if cp <? 128 then byte cp
   else if cp <? 2048 then byte (192 + cp / 64) +:+ byte (128 + cp mod 64)
   else if cp <? 65536 then
     byte (224 + cp / 4096) +:+ byte (128 + (cp / 64) mod 64) +:+ byte (128 + cp mod 64)
   else
     byte (240 + cp / 262144) +:+ byte (128 + (cp / 4096) mod 64)
     +:+ byte (128 + (cp / 64) mod 64) +:+ byte (128 + cp mod 64))%N.

(** A [\u] escape, with a following low surrogate folded in. *)
Definition unicode_escape (s : string) : option (string * string) :=
  match hex4 s with
  | None => None
  | Some (u, r) =>
      if ((55296 <=? u) && (u <=? 56319))%N then
        match r with
        | String "\" (String "u" r') =>
            match hex4 r' with
            | Some (u2, r2) =>
                if ((56320 <=? u2) && (u2 <=? 57343))%N
                then Some (chr (65536 + ((u - 55296) * 1024 + (u2 - 56320))), r2)%N
                else Some (chr u, r)
            | None => None
            end
        | _ => Some (chr u, r)
        end
      else Some (chr u, r)
  end.

(** [scanstring], entered after the opening quote. *)
Fixpoint scanstring (fuel : nat) (s : string) : option (string * string) :=
  match fuel with
  | O => None
  | S fuel' =>
      match s with
      | EmptyString => None
      | String c r =>
          if Ascii.eqb c Str.dquote then Some (EmptyString, r)
          else if Ascii.eqb c "\" then
            match r with
            | EmptyString => None
            | String e r' =>
                let simple (x : string) :=
                  match scanstring fuel' r' with
                  | Some (v, rest) => Some (x +:+ v, rest)
                  | None => None
                  end in
                if Ascii.eqb e Str.dquote then simple Str.q
                else if Ascii.eqb e "\" then simple "\"
                else if Ascii.eqb e "/" then simple "/"
                else if Ascii.eqb e "b" then simple (byte 8)
                else if Ascii.eqb e "f" then simple (byte 12)
                else if Ascii.eqb e "n" then simple (byte 10)
                else if Ascii.eqb e "r" then simple (byte 13)
                else if Ascii.eqb e "t" then simple (byte 9)
                else if Ascii.eqb e "u" then
                  match unicode_escape r' with
                  | Some (x, r2) =>
                      match scanstring fuel' r2 with
                      | Some (v, rest) => Some (x +:+ v, rest)
                      | None => None
                      end
                  | None => None
                  end
                else None
            end
          else if (nat_of_ascii c <? 32)%nat then None
          else match scanstring fuel' r with
               | Some (v, rest) => Some (String c v, rest)
               | None => None
               end
      end
  end.

Definition scan_string (s : string) : option (string * string) :=
  scanstring (S (String.length s)) s.

Definition literal (lit : string) (v : json) (s : string) : option (json * string) :=
  match strip_prefix lit s with
  | Some r => Some (v, r)
  | None => None
  end.

(** [scan_once]: one value at the front of [s]. *)
Fixpoint scan_once (fuel : nat) (s : string) : option (json * string) :=
  match fuel with
  | O => None
  | S fuel' =>
      match s with
      | EmptyString => None
      | String c r =>
          if Ascii.eqb c Str.dquote then
            match scan_string r with
            | Some (v, rest) => Some (JStr v, rest)
            | None => None
            end
          else if Ascii.eqb c "{" then
            match skip_ws r with
            | String "}" rest => Some (JDict [], rest)
            | r1 => object_items fuel' r1 []
            end
          else if Ascii.eqb c "[" then
            match skip_ws r with
            | String "]" rest => Some (JList [], rest)
            | r1 => array_items fuel' r1 []
            end
          else if Ascii.eqb c "n" then literal "null" JNull s
          else if Ascii.eqb c "t" then literal "true" (JBool true) s
          else if Ascii.eqb c "f" then literal "false" (JBool false) s
          else match match_number s with
               | Some res => Some res
               | None =>
                   if Ascii.eqb c "N" then literal "NaN" (JFloat "NaN") s
                   else if Ascii.eqb c "I" then literal "Infinity" (JFloat "Infinity") s
                   else if Ascii.eqb c "-" then literal "-Infinity" (JFloat "-Infinity") s
                   else None
               end
      end
  end
with array_items (fuel : nat) (s : string) (acc : list json) : option (json * string) :=
  match fuel with
  | O => None
  | S fuel' =>
      match scan_once fuel' s with
      | None => None
      | Some (v, s1) =>
          match skip_ws s1 with
          | String "]" rest => Some (JList (acc ++ [v]), rest)
          | String "," rest => array_items fuel' (skip_ws rest) (acc ++ [v])
          | _ => None
          end
      end
  end
with object_items (fuel : nat) (s : string) (acc : list (string * json)) : option (json * string) :=
  match fuel with
  | O => None
  | S fuel' =>
      match s with
      | String c r =>
          if Ascii.eqb c Str.dquote then
            match scan_string r with
            | None => None
            | Some (k, s1) =>
                match skip_ws s1 with
                | String ":" s2 =>
                    match scan_once fuel' (skip_ws s2) with
                    | None => None
                    | Some (v, s3) =>
                        match skip_ws s3 with
                        | String "}" rest => Some (JDict (Dict.set acc k v), rest)
                        | String "," rest =>
                            object_items fuel' (skip_ws rest) (Dict.set acc k v)
                        | _ => None
                        end
                    end
                | _ => None
                end
            end
          else None
      | EmptyString => None
      end
  end.

(** [json.loads(s)]: leading white space, one value, trailing white space,
    end of input. *)
Definition loads (s : string) : option json :=
  match scan_once (2 * String.length s + 2) (skip_ws s) with
  | Some (v, rest) =>
      match skip_ws rest with
      | EmptyString => Some v
      | String _ _ => None
      end
  | None => None
  end.

End Json.

(** ** Exceptions and results *)

Inductive invocation :=
| Shell (command : string)        (* [subprocess.run(command, shell=True, ...)] *)
| Argv (args : list string).      (* [subprocess.run([...], ...)] *)

Inductive exn :=
| FileNotFoundError (p : path)
| FileExistsError (p : path)
| NotADirectoryError (p : path)
| IsADirectoryError (p : path)
| PermissionError (p : path)
| SameFileError (src dst : path)
| CalledProcessError (args : list string) (returncode : Z)
| TimeoutExpired (inv : invocation) (timeout : Z)
| OSError (msg : string)
| JSONDecodeError
| KeyError (key : string)
| TypeError (msg : string).

Definition invocation_str (inv : invocation) : string :=
  match inv with
  | Shell c => c
  | Argv args => "[" +:+ Str.join ", " (map (fun a => "'" +:+ a +:+ "'") args) +:+ "]"
  end.

(** [str(e)], with CPython's wording for the usual cases. *)
Definition exn_str (e : exn) : string :=
  match e with
  | FileNotFoundError p => "[Errno 2] No such file or directory: '" +:+ Path.str p +:+ "'"
  | FileExistsError p => "[Errno 17] File exists: '" +:+ Path.str p +:+ "'"
  | NotADirectoryError p => "[Errno 20] Not a directory: '" +:+ Path.str p +:+ "'"
  | IsADirectoryError p => "[Errno 21] Is a directory: '" +:+ Path.str p +:+ "'"
  | PermissionError p => "[Errno 13] Permission denied: '" +:+ Path.str p +:+ "'"
  | SameFileError a b =>
      "'" +:+ Path.str a +:+ "' and '" +:+ Path.str b +:+ "' are the same file"
  | CalledProcessError args rc =>
      "Command '" +:+ invocation_str (Argv args)
      +:+ "' returned non-zero exit status " +:+ Str.of_Z rc +:+ "."
  | TimeoutExpired inv t =>
      "Command '" +:+ invocation_str inv +:+ "' timed out after "
      +:+ Str.of_Z t +:+ " seconds"
  | OSError msg => msg
  | JSONDecodeError => "Expecting value"
  | KeyError k => "'" +:+ k +:+ "'"
  | TypeError msg => msg
  end.

Inductive result (A : Type) :=
| Returned (a : A)
| Raised (e : exn).
Arguments Returned {A} a.
Arguments Raised {A} e.

Definition rbind {A B} (r : result A) (k : A -> result B) : result B :=
  match r with
  | Returned a => k a
  | Raised e => Raised e
  end.

(** ** The file system *)

Inductive content :=
| Text (s : string)        (* any text *)
| JsonDoc (v : json).      (* the text [json.dump] writes for [v] *)

Inductive node :=
| Dir
| File (c : content).

(** [json.load(f)]: [json.dump] output reads back as the value written; on
    other text the decoder decides. *)
Definition json_load (c : content) : result json :=
  match c with
  | JsonDoc v => Returned v
  | Text s => match Json.loads s with
              | Some v => Returned v
              | None => Raised JSONDecodeError
              end
  end.

Module FS.

(** What is at [p]; the root is always a directory. *)
Definition node_at (fs : gmap path node) (p : path) : option node :=
  match p with
  | [] => Some Dir
  | _ => fs !! p
  end.

Definition exists_ (fs : gmap path node) (p : path) : bool :=
  match node_at fs p with Some _ => true | None => false end.

Definition is_dir (fs : gmap path node) (p : path) : bool :=
  match node_at fs p with Some Dir => true | _ => false end.

(** The error of creating an entry in a parent that is no directory. *)
Definition parent_error (fs : gmap path node) (p : path) : option exn :=
  match node_at fs (Path.parent p) with
  | Some Dir => None
  | Some (File _) => Some (NotADirectoryError p)
  | None => Some (FileNotFoundError p)
  end.

(** [p.mkdir(exist_ok=True)]: no parents are created; an existing
    directory is accepted, an existing file is not. *)
Definition mkdir_exist_ok (fs : gmap path node) (denied : gset path) (p : path)
  : result (gmap path node) :=
  match node_at fs p with
  | Some Dir => Returned fs
  | Some (File _) => Raised (FileExistsError p)
  | None =>
      match parent_error fs p with
      | Some e => Raised e
      | None =>
          if decide (p ∈ denied) then Raised (PermissionError p)
          else Returned (<[p := Dir]> fs)
      end
  end.

(** [open(p, "w")] and writing [c]. *)
Definition write (fs : gmap path node) (denied : gset path) (p : path) (c : content)
  : result (gmap path node) :=
  match node_at fs p with
  | Some Dir => Raised (IsADirectoryError p)
  | _ =>
      match parent_error fs p with
      | Some e => Raised e
      | None =>
          if decide (p ∈ denied) then Raised (PermissionError p)
          else Returned (<[p := File c]> fs)
      end
  end.

(** [open(p, "r")] and reading everything. *)
Definition read (fs : gmap path node) (denied : gset path) (p : path) : result content :=
  match node_at fs p with
  | Some (File c) =>
      if decide (p ∈ denied) then Raised (PermissionError p) else Returned c
  | Some Dir => Raised (IsADirectoryError p)
  | None => Raised (FileNotFoundError p)
  end.

(** Where [shutil.copy2(src, dst)] writes: into [dst] when it is a
    directory. *)
Definition copy_target (fs : gmap path node) (src dst : path) : path :=
  if is_dir fs dst then dst ++ [Path.name src] else dst.

(** [shutil.copy2(src, dst)] *)
Definition copy2 (fs : gmap path node) (denied : gset path) (src dst : path)
  : result (gmap path node) :=
  let dst := copy_target fs src dst in
  if (bool_decide (src = dst) && exists_ fs src)%bool then Raised (SameFileError src dst)
  else rbind (read fs denied src) (fun c => write fs denied dst c).

(** The names of the entries directly below [d]. *)
Definition entry_name (d : path) (p : path) : option string :=
  match drop (length d) p with
  | [n] => if decide (take (length d) p = d) then Some n else None
  | _ => None
  end.

Definition children (fs : gmap path node) (d : path) : list string :=
  omap (fun kv => entry_name d (fst kv)) (map_to_list fs).

End FS.

(** ** The world the program runs in *)

Inductive proc_outcome :=
| Exited (returncode : Z) (stdout stderr : string)
| TimedOut
| LaunchFailed (msg : string).

Inductive level := INFO | WARNING | ERROR.

Inductive event :=
| Log (lvl : level) (msg : string)       (* [self.logger.<lvl>(msg)] *)
| Print (text : string)                  (* [print(text)] *)
| Input (prompt : string)                (* [input(prompt)] *)
| Subprocess (inv : invocation)          (* [subprocess.run(...)] *)
| Copy2 (src dst : path).                (* [shutil.copy2(src, dst)] *)

Record datetime := {
  year : nat; month : nat; day : nat; hour : nat; minute : nat; second : nat
}.

(** [now.strftime("%Y%m%d_%H%M%S")] *)
Definition strftime (t : datetime) : string :=
  Str.pad4 (year t) +:+ Str.pad2 (month t) +:+ Str.pad2 (day t) +:+ "_"
  +:+ Str.pad2 (hour t) +:+ Str.pad2 (minute t) +:+ Str.pad2 (second t).

(** The operator answers every prompt ([answers w 0] is the next line typed);
    the registry tool is part of the platform and always starts, its exit
    status is [reg_status]; any other process is run by [run_process], which
    also says what the process did to the file system. *)
Record World := {
  os_name : string;                        (* [os.name] *)
  home : path;                             (* [Path.home()] *)
  cwd : path;                              (* [Path.cwd()] *)
  environ : gmap string string;            (* [os.environ] *)
  clock : datetime;                        (* [datetime.datetime.now()] *)
  fs : gmap path node;
  denied : gset path;                      (* paths the OS refuses to open or create *)
  registry : content;
  reg_status : list string -> Z;
  run_process : invocation -> gmap path node -> proc_outcome * gmap path node;
  answers : nat -> string;
  trace : list event
}.

Definition set_fs (f : gmap path node) (w : World) : World :=
  {| os_name := os_name w; home := home w; cwd := cwd w; environ := environ w;
     clock := clock w; fs := f; denied := denied w; registry := registry w;
     reg_status := reg_status w; run_process := run_process w;
     answers := answers w; trace := trace w |}.

Definition set_registry (r : content) (w : World) : World :=
  {| os_name := os_name w; home := home w; cwd := cwd w; environ := environ w;
     clock := clock w; fs := fs w; denied := denied w; registry := r;
     reg_status := reg_status w; run_process := run_process w;
     answers := answers w; trace := trace w |}.

Definition set_answers (a : nat -> string) (w : World) : World :=
  {| os_name := os_name w; home := home w; cwd := cwd w; environ := environ w;
     clock := clock w; fs := fs w; denied := denied w; registry := registry w;
     reg_status := reg_status w; run_process := run_process w;
     answers := a; trace := trace w |}.

Definition set_trace (t : list event) (w : World) : World :=
  {| os_name := os_name w; home := home w; cwd := cwd w; environ := environ w;
     clock := clock w; fs := fs w; denied := denied w; registry := registry w;
     reg_status := reg_status w; run_process := run_process w;
     answers := answers w; trace := t |}.

(** ** The monad: state that survives an exception *)

Definition M (A : Type) : Type := World -> result A * World.

Definition ret {A} (a : A) : M A := fun w => (Returned a, w).

Definition raise {A} (e : exn) : M A := fun w => (Raised e, w).

Definition bind {A B} (m : M A) (k : A -> M B) : M B :=
  fun w => match m w with
           | (Returned a, w') => k a w'
           | (Raised e, w') => (Raised e, w')
           end.

Declare Scope py_scope.
Delimit Scope py_scope with py.
Notation "x <- m ;; k" := (bind m (fun x => k))
  (at level 100, m at next level, right associativity) : py_scope.
Notation "m ;; k" := (bind m (fun _ => k))
  (at level 100, right associativity) : py_scope.
Local Open Scope py_scope.

(** [try: body / except ...: handler]: [handler e] is [None] when no
    [except] clause matches [e]. *)
Definition try_except {A} (body : M A) (handler : exn -> option (M A)) : M A :=
  fun w => match body w with
           | (Returned a, w') => (Returned a, w')
           | (Raised e, w') =>
               match handler e with
               | Some h => h w'
               | None => (Raised e, w')
               end
           end.

(** [for x in l: body(x)] *)
Fixpoint for_each {A} (l : list A) (body : A -> M unit) : M unit :=
  match l with
  | [] => ret tt
  | x :: l' => body x ;; for_each l' body
  end.

Definition asks {A} (f : World -> A) : M A := fun w => (Returned (f w), w).

Definition emit (e : event) : M unit :=
  fun w => (Returned tt, set_trace (trace w ++ [e]) w).

Definition log (lvl : level) (msg : string) : M unit := emit (Log lvl msg).
Definition print (text : string) : M unit := emit (Print text).

Definition input (prompt : string) : M string :=
  emit (Input prompt) ;;
  fun w => (Returned (answers w 0%nat), set_answers (fun n => answers w (S n)) w).

(** Lifting a file-system operation. *)
Definition fs_update (op : gmap path node -> gset path -> result (gmap path node)) : M unit :=
  fun w => match op (fs w) (denied w) with
           | Returned f => (Returned tt, set_fs f w)
           | Raised e => (Raised e, w)
           end.

Definition path_exists (p : path) : M bool := asks (fun w => FS.exists_ (fs w) p).
Definition is_dir (p : path) : M bool := asks (fun w => FS.is_dir (fs w) p).

Definition mkdir_exist_ok (p : path) : M unit :=
  fs_update (fun f d => FS.mkdir_exist_ok f d p).

Definition copy2 (src dst : path) : M unit :=
  emit (Copy2 src dst) ;;
  fs_update (fun f d => FS.copy2 f d src dst).

(** [with open(p, "w") as f: json.dump(v, f, indent=2)] *)
Definition dump_json (p : path) (v : json) : M unit :=
  fs_update (fun f d => FS.write f d p (JsonDoc v)).

(** [with open(p, "r") as f: json.load(f)] *)
Definition load_json (p : path) : M json :=
  fun w => (rbind (FS.read (fs w) (denied w) p) json_load, w).

(** [d.iterdir()], consumed to the end. *)
Definition iterdir (d : path) : M (list path) :=
  fun w => match FS.node_at (fs w) d with
           | Some Dir => (Returned (map (fun n => d ++ [n]) (FS.children (fs w) d)), w)
           | Some (File _) => (Raised (NotADirectoryError d), w)
           | None => (Raised (FileNotFoundError d), w)
           end.

(** [d.glob("*")]: the entries of [d] as they are when the loop starts;
    nothing when [d] is no directory. *)
Definition glob_star (d : path) : M (list path) :=
  asks (fun w => if FS.is_dir (fs w) d
                 then map (fun n => d ++ [n]) (FS.children (fs w) d) else []).

(** [subprocess.run(["reg", "export", "HKEY_CURRENT_USER", str(target)],
    check=True, capture_output=True)]: on success the tool has written the
    export; an export it cannot write is a failure of the tool. *)
Definition reg_export (target : path) : M unit :=
  let args := ["reg"; "export"; "HKEY_CURRENT_USER"; Path.str target] in
  emit (Subprocess (Argv args)) ;;
  fun w =>
    if Z.eqb (reg_status w args) 0 then
      match FS.write (fs w) (denied w) target (registry w) with
      | Returned f => (Returned tt, set_fs f w)
      | Raised _ => (Raised (CalledProcessError args 1), w)
      end
    else (Raised (CalledProcessError args (reg_status w args)), w).

(** [subprocess.run(["reg", "import", str(source)], check=True)] *)
Definition reg_import (source : path) : M unit :=
  let args := ["reg"; "import"; Path.str source] in
  emit (Subprocess (Argv args)) ;;
  fun w =>
    if Z.eqb (reg_status w args) 0 then
      match FS.node_at (fs w) source with
      | Some (File c) => (Returned tt, set_registry c w)
      | _ => (Returned tt, w)
      end
    else (Raised (CalledProcessError args (reg_status w args)), w).

(** [subprocess.run(inv, capture_output=True, text=True, timeout=t)] *)
Definition subprocess_run (inv : invocation) (timeout : Z) : M (Z * string * string) :=
  emit (Subprocess inv) ;;
  fun w =>
    let '(outcome, f) := run_process w inv (fs w) in
    let w' := set_fs f w in
    match outcome with
    | Exited rc out err => (Returned (rc, out, err), w')
    | TimedOut => (Raised (TimeoutExpired inv timeout), w')
    | LaunchFailed msg => (Raised (OSError msg), w')
    end.

(** [os.getenv(k)] *)
Definition getenv (k : string) : M (option string) := asks (fun w => environ w !! k).

Definition lift {A} (r : result A) : M A := fun w => (r, w).

(** ** [sorted(l, key=..., reverse=True)]

    [x[k]] and [<] as Python defines them on decoded JSON: strings compare
    with strings, integers and booleans with each other; comparisons that
    involve a float or a list are outside the model and are given the
    [TypeError] of unorderable operands. *)

Definition getitem (x : json) (k : string) : result json :=
  match x with
  | JDict d => match Dict.get d k with
               | Some v => Returned v
               | None => Raised (KeyError k)
               end
  | JList _ => Raised (TypeError "list indices must be integers or slices, not str")
  | JStr _ => Raised (TypeError "string indices must be integers")
  | _ => Raised (TypeError "object is not subscriptable")
  end.

Definition as_int (x : json) : option Z :=
  match x with
  | JInt z => Some z
  | JBool b => Some (if b then 1 else 0)
  | _ => None
  end.

Definition py_lt (a b : json) : result bool :=
  match a, b with
  | JStr s, JStr t => Returned (String.ltb s t)
  | _, _ => match as_int a, as_int b with
            | Some x, Some y => Returned (x <? y)
            | _, _ => Raised (TypeError "'<' not supported between these instances")
            end
  end.

(** Keyed records; the sort is stable, so among equal keys the earlier
    record stays first, also with [reverse=True]. *)
Fixpoint insert_desc (x : json * json) (l : list (json * json))
  : result (list (json * json)) :=
  match l with
  | [] => Returned [x]
  | y :: l' =>
      rbind (py_lt (fst x) (fst y)) (fun smaller =>
        if smaller : bool
        then rbind (insert_desc x l') (fun l'' => Returned (y :: l''))
        else Returned (x :: y :: l'))
  end.

Fixpoint sort_desc (l : list (json * json)) : result (list (json * json)) :=
  match l with
  | [] => Returned []
  | x :: l' => rbind (sort_desc l') (insert_desc x)
  end.

Fixpoint with_keys (key : json -> result json) (l : list json)
  : result (list (json * json)) :=
  match l with
  | [] => Returned []
  | x :: l' =>
      rbind (key x) (fun k =>
        rbind (with_keys key l') (fun kl => Returned ((k, x) :: kl)))
  end.

Definition sorted_reverse (key : json -> result json) (l : list json) : result (list json) :=
  rbind (with_keys key l) (fun kl =>
    rbind (sort_desc kl) (fun s => Returned (map snd s))).

(** ** [class SuperUserAssistant] *)

Record SuperUserAssistant := {
  backup_dir : path;
  log_file : path
}.

Definition ensure_backup_dir (self : SuperUserAssistant) : M unit :=
  mkdir_exist_ok (backup_dir self) ;;
  log INFO ("Backup directory: " +:+ Path.str (backup_dir self)).

(** [__init__]; the logging handlers are the [Log] events of the trace. *)
Definition init : M SuperUserAssistant :=
  h <- asks home ;;
  let self := {| backup_dir := h // ".superuser-backups";
                 log_file := h // ".superuser.log" |} in
  ensure_backup_dir self ;;
  ret self.

Definition etc_hosts : path := Path.parts "/etc/hosts".

Definition snapshot_metadata (snapshot_id timestamp operation_name system : string)
    (user : option string) (cwd_ : path) : json :=
  JDict [("snapshot_id", JStr snapshot_id);
         ("timestamp", JStr timestamp);
         ("operation", JStr operation_name);
         ("system", JStr system);
         ("user", match user with Some u => JStr u | None => JNull end);
         ("cwd", JStr (Path.str cwd_))].

Definition only_called_process_error {A} (h : exn -> M A) (e : exn) : option (M A) :=
  match e with
  | CalledProcessError _ _ => Some (h e)
  | _ => None
  end.

Definition any_exception {A} (h : exn -> M A) (e : exn) : option (M A) := Some (h e).

Definition backup_config (snapshot_dir : path) (config_file : option path) : M unit :=
  match config_file with
  | Some config_file =>
      present <- path_exists config_file ;;
      if present : bool then
        try_except
          (copy2 config_file (snapshot_dir // Path.name config_file) ;;
           log INFO ("Backed up: " +:+ Path.str config_file))
          (any_exception (fun e =>
             log WARNING ("Failed to backup " +:+ Path.str config_file
                          +:+ ": " +:+ exn_str e)))
      else ret tt
  | None => ret tt
  end.

(** [# Backup registry (Windows)] *)
Definition backup_registry (snapshot_dir : path) : M unit :=
  os <- asks os_name ;;
  if String.eqb os "nt" then
    try_except
      (let reg_backup := snapshot_dir // "registry_backup.reg" in
       reg_export reg_backup ;;
       log INFO "Registry backup created")
      (only_called_process_error (fun e =>
         log WARNING ("Registry backup failed: " +:+ exn_str e)))
  else ret tt.

(** [# Backup important configs] *)
Definition backup_configs (snapshot_dir : path) : M unit :=
  h <- asks home ;;
  hosts_there <- path_exists etc_hosts ;;
  let config_files :=
    [Some (h // ".bashrc");
     Some (h // ".ssh" // "config");
     if hosts_there : bool then Some etc_hosts else None] in
  for_each config_files (backup_config snapshot_dir).

(** [os.getenv("USER") or os.getenv("USERNAME")] *)
Definition current_user : M (option string) :=
  user <- getenv "USER" ;;
  match user with
  | Some u => if Str.truthy u then ret (Some u) else getenv "USERNAME"
  | None => getenv "USERNAME"
  end.

(** [# Save snapshot metadata] *)
Definition save_metadata (snapshot_dir : path)
    (snapshot_id timestamp operation_name : string) : M unit :=
  os <- asks os_name ;;
  user <- current_user ;;
  cwd_ <- asks cwd ;;
  let metadata := snapshot_metadata snapshot_id timestamp operation_name os user cwd_ in
  dump_json (snapshot_dir // "metadata.json") metadata.

Definition create_system_snapshot (self : SuperUserAssistant) (operation_name : string)
  : M string :=
  now <- asks clock ;;
  let timestamp := strftime now in
  let snapshot_id := operation_name +:+ "_" +:+ timestamp in
  let snapshot_dir := backup_dir self // snapshot_id in
  mkdir_exist_ok snapshot_dir ;;
  log INFO ("Creating system snapshot: " +:+ snapshot_id) ;;
  backup_registry snapshot_dir ;;
  backup_configs snapshot_dir ;;
  save_metadata snapshot_dir snapshot_id timestamp operation_name ;;
  ret snapshot_id.

(** The fixed table of the restore loop: where the backup named [name] goes
    back to. *)
Definition original_location (h : path) (name : string) : option path :=
  if Str.mem name [".bashrc"; "config"] then
    if String.eqb name "config" then Some (h // ".ssh" // "config")
    else Some (h // name)
  else if String.eqb name "hosts" then Some etc_hosts
  else None.

Definition restore_file (backup_file : path) : M unit :=
  if Str.mem (Path.name backup_file) ["metadata.json"; "registry_backup.reg"] then ret tt
  else
    h <- asks home ;;
    match original_location h (Path.name backup_file) with
    | None => ret tt
    | Some original =>
        try_except
          (copy2 backup_file original ;;
           log INFO ("Restored: " +:+ Path.str original))
          (any_exception (fun e =>
             log ERROR ("Failed to restore " +:+ Path.str original
                        +:+ ": " +:+ exn_str e)))
    end.

(** The registry step of the rollback; [false] is the early [return False]
    of its [except] clause. *)
Definition restore_registry (snapshot_dir : path) : M bool :=
  os <- asks os_name ;;
  if String.eqb os "nt" then
    let reg_backup := snapshot_dir // "registry_backup.reg" in
    present <- path_exists reg_backup ;;
    if present : bool then
      try_except
        (reg_import reg_backup ;;
         log INFO "Registry restored" ;;
         ret true)
        (only_called_process_error (fun e =>
           log ERROR ("Registry restore failed: " +:+ exn_str e) ;;
           ret false))
    else ret true
  else ret true.

Definition rollback_snapshot (self : SuperUserAssistant) (snapshot_id : string) : M bool :=
  let snapshot_dir := backup_dir self // snapshot_id in
  present <- path_exists snapshot_dir ;;
  if negb present then
    log ERROR ("Snapshot not found: " +:+ snapshot_id) ;;
    ret false
  else
    log INFO ("Rolling back to snapshot: " +:+ snapshot_id) ;;
    (* Restore registry (Windows) *)
    registry_ok <- restore_registry snapshot_dir ;;
    if negb registry_ok then ret false
    else
      (* Restore config files *)
      backup_files <- glob_star snapshot_dir ;;
      for_each backup_files restore_file ;;
      ret true.

Definition affirmative (answer : string) : bool :=
  Str.mem (Str.lower answer) ["yes"; "y"].

Definition confirm_prompt : string := Str.nl +:+ "✅ Execute this operation? (yes/no): ".
Definition rollback_prompt : string := Str.nl +:+ "🔄 Rollback changes? (yes/no): ".

Definition cancelled : bool * string * string := (false, "", "Operation cancelled").
Definition timed_out : bool * string * string := (false, "", "Command timed out").

(** The command executor: how [safe_execute] starts the command. *)
Definition command_invocation (os command : string) (require_admin : bool) : invocation :=
  if (require_admin && String.eqb os "nt")%bool then
    (* Windows: Use powershell with admin *)
    let ps_command :=
      "Start-Process powershell -Verb RunAs -ArgumentList '-Command', '"
      +:+ command +:+ "'" in
    Argv ["powershell"; "-Command"; ps_command]
  else
    (* Standard execution *)
    Shell command.

(** What [safe_execute] does once the command has failed. *)
Definition offer_rollback (self : SuperUserAssistant) (snapshot_id : string) : M unit :=
  rollback <- input rollback_prompt ;;
  if affirmative rollback then
    ok <- rollback_snapshot self snapshot_id ;;
    if ok : bool then print "✅ Successfully rolled back changes"
    else print "❌ Rollback failed - check logs"
  else ret tt.

(** [# Ask for user confirmation]: what is shown before the prompt. *)
Definition announce (command operation_name : string) (require_admin : bool)
    (snapshot_id : string) : M unit :=
  print (Str.nl +:+ "🤖 LLM Super User Assistant") ;;
  print ("📋 Operation: " +:+ operation_name) ;;
  print ("💻 Command: " +:+ command) ;;
  print ("🛡️ Snapshot: " +:+ snapshot_id) ;;
  if require_admin then print "⚠️  This operation requires administrative privileges"
  else ret tt.

(** From [success = result.returncode == 0] to the [return] of the [try]
    block. *)
Definition report_result (self : SuperUserAssistant) (snapshot_id : string)
    (res : Z * string * string) : M (bool * string * string) :=
  let '(returncode, stdout, stderr) := res in
  let success := Z.eqb returncode 0 in
  (if success then
     log INFO "✅ Operation completed successfully" ;;
     print (Str.nl +:+ "✅ Operation completed successfully!") ;;
     if Str.truthy stdout then print ("📤 Output:" +:+ Str.nl +:+ stdout) else ret tt
   else
     log ERROR ("❌ Operation failed: " +:+ stderr) ;;
     print (Str.nl +:+ "❌ Operation failed!") ;;
     print ("🔥 Error: " +:+ stderr) ;;
     (* Ask if user wants to rollback *)
     offer_rollback self snapshot_id) ;;
  ret (success, stdout, stderr).

(** [# Execute command] *)
Definition execute_command (self : SuperUserAssistant) (command : string)
    (require_admin : bool) (snapshot_id : string) : M (bool * string * string) :=
  log INFO ("Executing: " +:+ command) ;;
  os <- asks os_name ;;
  res <- subprocess_run (command_invocation os command require_admin) 300 ;;
  report_result self snapshot_id res.

(** The body of the [try] block of [safe_execute]. *)
Definition confirm_and_execute (self : SuperUserAssistant)
    (command operation_name : string) (require_admin : bool) (snapshot_id : string)
  : M (bool * string * string) :=
  announce command operation_name require_admin snapshot_id ;;
  response <- input confirm_prompt ;;
  if negb (affirmative response) then
    print "❌ Operation cancelled by user" ;;
    ret cancelled
  else
    execute_command self command require_admin snapshot_id.

(** The two [except] clauses of [safe_execute]. *)
Definition execution_handlers (e : exn) : option (M (bool * string * string)) :=
  match e with
  | TimeoutExpired _ _ =>
      Some (log ERROR "Command timed out" ;; ret timed_out)
  | _ =>
      Some (log ERROR ("Execution failed: " +:+ exn_str e) ;;
            ret (false, "", exn_str e))
  end.

Definition safe_execute (self : SuperUserAssistant)
    (command operation_name : string) (require_admin : bool)
  : M (bool * string * string) :=
  (* Create snapshot before execution *)
  snapshot_id <- create_system_snapshot self operation_name ;;
  try_except
    (confirm_and_execute self command operation_name require_admin snapshot_id)
    execution_handlers.

(** The loop of [list_snapshots]; [snapshots] is the list built so far. *)
Fixpoint read_snapshots (dirs : list path) (snapshots : list json) : M (list json) :=
  match dirs with
  | [] => ret snapshots
  | snapshot_dir :: dirs' =>
      d <- is_dir snapshot_dir ;;
      snapshots' <-
        (if d : bool then
           let metadata_file := snapshot_dir // "metadata.json" in
           present <- path_exists metadata_file ;;
           if present : bool then
             try_except
               (metadata <- load_json metadata_file ;;
                ret (snapshots ++ [metadata]))
               (any_exception (fun e =>
                  log WARNING ("Failed to read metadata for " +:+ Path.str snapshot_dir
                               +:+ ": " +:+ exn_str e) ;;
                  ret snapshots))
           else ret snapshots
         else ret snapshots) ;;
      read_snapshots dirs' snapshots'
  end.

Definition list_snapshots (self : SuperUserAssistant) : M (list json) :=
  dirs <- iterdir (backup_dir self) ;;
  snapshots <- read_snapshots dirs [] ;;
  lift (sorted_reverse (fun x => getitem x "timestamp") snapshots).

(** ** [llm_interface.py] *)

(** [class LLMProvider(ABC)] *)
Class LLMProvider (P : Type) := {
  generate_response : P -> string -> string;
  validate_command : P -> string -> json
}.

Record OpenAIProvider := { api_key : string; model : string }.

#[export] Instance OpenAIProvider_LLMProvider : LLMProvider OpenAIProvider := {|
  generate_response _ _ := "Mock response - implement with actual OpenAI API";
  validate_command _ _ :=
    JDict [("safe", JBool true); ("confidence", JFloat "0.95");
           ("risks", JList []); ("recommendations", JList [])]
|}.

Record LocalLLMProvider := { model_name : string }.

#[export] Instance LocalLLMProvider_LLMProvider : LLMProvider LocalLLMProvider := {|
  generate_response _ _ := "Mock response - implement with local LLM";
  validate_command _ _ :=
    JDict [("safe", JBool true); ("confidence", JFloat "0.90");
           ("risks", JList []); ("recommendations", JList [])]
|}.

(** A provider that answers every prompt with one fixed text, as a test
    double does. *)
Record CannedProvider := { canned : string }.

#[export] Instance CannedProvider_LLMProvider : LLMProvider CannedProvider := {|
  generate_response p _ := canned p;
  validate_command _ _ := JDict []
|}.

Record LLMInterface (P : Type) := { provider : P }.
Arguments provider {P} _.

(** [str(v)] of a decoded value, as the f-strings of the log messages show
    it; a float is shown by its lexeme. *)
Fixpoint py_str (v : json) : string :=
  match v with
  | JNull => "None"
  | JBool b => if b then "True" else "False"
  | JInt z => Str.of_Z z
  | JFloat x => x
  | JStr s => "'" +:+ s +:+ "'"
  | JList l => "[" +:+ Str.join ", " (map py_str l) +:+ "]"
  | JDict d =>
      "{" +:+ Str.join ", " (map (fun '(k, x) => "'" +:+ k +:+ "': " +:+ py_str x) d)
      +:+ "}"
  end.

Definition parse_prompt (user_input : string) : string :=
  Str.join Str.nl
    ["";
     "        Parse the following user request into a structured command:";
     "        ";
     "        User Input: " +:+ Str.q +:+ user_input +:+ Str.q;
     "        ";
     "        Return a JSON structure with:";
     "        - action: The main action to perform";
     "        - target: What to modify/configure";
     "        - parameters: Any specific parameters";
     "        - safety_level: risk assessment (low/medium/high)";
     "        - requires_backup: whether backup is needed";
     "        - admin_required: whether admin privileges needed";
     "        ";
     "        Example:";
     "        {";
     "            " +:+ Str.q +:+ "action" +:+ Str.q +:+ ": "
       +:+ Str.q +:+ "install" +:+ Str.q +:+ ",";
     "            " +:+ Str.q +:+ "target" +:+ Str.q +:+ ": "
       +:+ Str.q +:+ "development_environment" +:+ Str.q +:+ ",";
     "            " +:+ Str.q +:+ "parameters" +:+ Str.q +:+ ": {"
       +:+ Str.q +:+ "languages" +:+ Str.q +:+ ": ["
       +:+ Str.q +:+ "python" +:+ Str.q +:+ ", "
       +:+ Str.q +:+ "nodejs" +:+ Str.q +:+ "]},";
     "            " +:+ Str.q +:+ "safety_level" +:+ Str.q +:+ ": "
       +:+ Str.q +:+ "low" +:+ Str.q +:+ ",";
     "            " +:+ Str.q +:+ "requires_backup" +:+ Str.q +:+ ": false,";
     "            " +:+ Str.q +:+ "admin_required" +:+ Str.q +:+ ": true";
     "        }";
     "        "].

Definition parse_error : json := JDict [("error", JStr "Failed to parse command")].

(** [json.loads(response)] with its [JSONDecodeError]. *)
Definition json_loads (s : string) : M json := lift (json_load (Text s)).

Definition only_json_decode_error {A} (h : exn -> M A) (e : exn) : option (M A) :=
  match e with
  | JSONDecodeError => Some (h e)
  | _ => None
  end.

Definition parse_natural_language_command {P} `{LLMProvider P}
    (self : LLMInterface P) (user_input : string) : M json :=
  let prompt := parse_prompt user_input in
  let response := generate_response (provider self) prompt in
  try_except
    ((* Parse JSON response *)
     parsed <- json_loads response ;;
     log INFO ("Parsed command: " +:+ py_str parsed) ;;
     ret parsed)
    (only_json_decode_error (fun _ =>
       log ERROR ("Failed to parse LLM response: " +:+ response) ;;
       ret parse_error)).

(** [validate_safety] *)
Definition validate_safety {P} `{LLMProvider P} (self : LLMInterface P) (command : string)
  : json :=
  validate_command (provider self) command.

(** ** [main]: the command line *)

(** [s * n] *)
Fixpoint repeat_str (s : string) (n : nat) : string :=
  match n with
  | O => ""
  | S n' => s +:+ repeat_str s n'
  end.

(** [l.index(x)], where [x in l] has been tested. *)
Fixpoint index_of (x : string) (l : list string) : option nat :=
  match l with
  | [] => None
  | y :: l' => if String.eqb x y then Some O
               else match index_of x l' with
                    | Some i => Some (S i)
                    | None => None
                    end
  end.

(** The argument after the first occurrence of [flag]:
    [if flag in sys.argv: idx = sys.argv.index(flag);
     if idx + 1 < len(sys.argv): ... sys.argv[idx + 1]]. *)
Definition flag_value (argv : list string) (flag : string) : option string :=
  if Str.mem flag argv then
    match index_of flag argv with
    | Some idx => if (idx + 1 <? length argv)%nat then nth_error argv (idx + 1) else None
    | None => None
    end
  else None.

(** A value inside an f-string: a [str] is shown as it is. *)
Definition py_format (v : json) : string :=
  match v with
  | JStr s => s
  | _ => py_str v
  end.

(** One line of the [--snapshots] listing; the three subscripts are taken
    from left to right. *)
Definition print_snapshot (snapshot : json) : M unit :=
  sid <- lift (getitem snapshot "snapshot_id") ;;
  op <- lift (getitem snapshot "operation") ;;
  ts <- lift (getitem snapshot "timestamp") ;;
  print ("  🔹 " +:+ py_format sid +:+ " - " +:+ py_format op
         +:+ " (" +:+ py_format ts +:+ ")").

Definition print_usage : M unit :=
  print "Usage examples:" ;;
  print "  python superuser.py --command 'echo Hello World' --operation 'test'" ;;
  print "  python superuser.py --snapshots" ;;
  print "  python superuser.py --rollback <snapshot_id>".

(** [main()] from the test of [len(sys.argv)] on. *)
Definition dispatch (assistant : SuperUserAssistant) (argv : list string) : M unit :=
  if (length argv <? 2)%nat then print_usage
  else if Str.mem "--snapshots" argv then
    snapshots <- list_snapshots assistant ;;
    print (Str.nl +:+ "📸 Available snapshots ("
           +:+ Str.of_Z (Z.of_nat (length snapshots)) +:+ "):") ;;
    for_each snapshots print_snapshot
  else if Str.mem "--rollback" argv then
    match flag_value argv "--rollback" with
    | Some snapshot_id =>
        ok <- rollback_snapshot assistant snapshot_id ;;
        if ok : bool then print "✅ Rollback completed" else print "❌ Rollback failed"
    | None => ret tt
    end
  else
    (* Execute command *)
    let command := flag_value argv "--command" in
    let operation := match flag_value argv "--operation" with
                     | Some o => o
                     | None => "manual_command"
                     end in
    let require_admin := Str.mem "--admin" argv in
    match command with
    | Some c =>
        if Str.truthy c then safe_execute assistant c operation require_admin ;; ret tt
        else print "❌ No command specified"
    | None => print "❌ No command specified"
    end.

(** [main()], with [argv] for [sys.argv] (the program name first). *)
Definition main (argv : list string) : M unit :=
  assistant <- init ;;
  print "🤖 LLM Super User Assistant v1.0" ;;
  print (repeat_str "=" 50) ;;
  dispatch assistant argv.

(** ** [llm_interface.py]: the execution plan and the factory *)

(** [len(x)] of a decoded value; the length of a [str] is its number of
    code points. *)
Fixpoint code_points (s : string) : nat :=
  match s with
  | EmptyString => O
  | String c s' =>
      let n := nat_of_ascii c in
      if ((128 <=? n) && (n <? 192))%nat%bool then code_points s' else S (code_points s')
  end.

Definition py_len (v : json) : result nat :=
  match v with
  | JList l => Returned (length l)
  | JDict d => Returned (length d)
  | JStr s => Returned (code_points s)
  | JNull => Raised (TypeError "object of type 'NoneType' has no len()")
  | JBool _ => Raised (TypeError "object of type 'bool' has no len()")
  | JInt _ => Raised (TypeError "object of type 'int' has no len()")
  | JFloat _ => Raised (TypeError "object of type 'float' has no len()")
  end.

Section ExecutionPlan.

(** [json.dumps(command, indent=2)]: the serialiser of the standard
    library, whose text only goes into the prompt. *)
Variable json_dumps : json -> string.

Definition plan_prompt (command : json) : string :=
  Str.join Str.nl
    ["";
     "        Create a detailed execution plan for this command:";
     "        " +:+ json_dumps command;
     "        ";
     "        Return a JSON array of steps, each with:";
     "        - step_number: Sequential step number";
     "        - description: Human-readable description";
     "        - command: Actual command to execute";
     "        - estimated_time: Estimated duration";
     "        - reversible: Whether this step can be undone";
     "        - backup_required: Whether backup is needed before this step";
     "        "].

Definition generate_execution_plan {P} `{LLMProvider P}
    (self : LLMInterface P) (command : json) : M json :=
  let prompt := plan_prompt command in
  let response := generate_response (provider self) prompt in
  try_except
    (steps <- json_loads response ;;
     n <- lift (py_len steps) ;;
     log INFO ("Generated " +:+ Str.of_Z (Z.of_nat n) +:+ " execution steps") ;;
     ret steps)
    (only_json_decode_error (fun _ =>
       log ERROR ("Failed to parse execution plan: " +:+ response) ;;
       ret (JList []))).

End ExecutionPlan.

(** The providers the factory can build. *)
Inductive Provider :=
| OpenAI (p : OpenAIProvider)
| Local (p : LocalLLMProvider).

#[export] Instance Provider_LLMProvider : LLMProvider Provider := {|
  generate_response p prompt :=
    match p with
    | OpenAI p => generate_response p prompt
    | Local p => generate_response p prompt
    end;
  validate_command p command :=
    match p with
    | OpenAI p => validate_command p command
    | Local p => validate_command p command
    end
|}.

Inductive factory_result :=
| Created (interface : LLMInterface Provider)
| ValueError (msg : string).

(** [kwargs.get(k, default)] *)
Definition kwargs_get (kwargs : gmap string string) (k default : string) : string :=
  match kwargs !! k with
  | Some v => v
  | None => default
  end.

(** [create_llm_interface(provider_type, **kwargs)] *)
Definition create_llm_interface (provider_type : string) (kwargs : gmap string string)
  : factory_result :=
  if String.eqb provider_type "openai" then
    match kwargs !! "api_key" with
    | Some key =>
        if Str.truthy key then
          Created {| provider := OpenAI {| api_key := key;
                                           model := kwargs_get kwargs "model" "gpt-4" |} |}
        else ValueError "OpenAI API key required"
    | None => ValueError "OpenAI API key required"
    end
  else if String.eqb provider_type "local" then
    Created {| provider := Local {| model_name := kwargs_get kwargs "model" "llama2" |} |}
  else ValueError ("Unknown provider type: " +:+ provider_type).

(** ** Vocabulary of the statements *)

(** The prompts shown, the copies attempted and the processes started, in
    the order of the trace. *)
Definition inputs (t : list event) : list string :=
  omap (fun e => match e with Input p => Some p | _ => None end) t.

Definition copies (t : list event) : list (path * path) :=
  omap (fun e => match e with Copy2 s d => Some (s, d) | _ => None end) t.

Definition spawned (t : list event) : list invocation :=
  omap (fun e => match e with Subprocess i => Some i | _ => None end) t.

(** A world that differs from [w] in its files and its trace only. *)
Definition upd (f : gmap path node) (t : list event) (w : World) : World :=
  set_trace t (set_fs f w).

Definition reg_import_args (snapshot_dir : path) : list string :=
  ["reg"; "import"; Path.str (snapshot_dir // "registry_backup.reg")].

(** The registry import of a rollback fails: on Windows, with an export in
    the snapshot, the tool exits with a status other than 0. *)
Definition registry_restore_fails (w : World) (snapshot_dir : path) : bool :=
  (String.eqb (os_name w) "nt"
   && FS.exists_ (fs w) (snapshot_dir // "registry_backup.reg")
   && negb (Z.eqb (reg_status w (reg_import_args snapshot_dir)) 0))%bool.

(** The copies a rollback of the directory [d] with entries [names] calls
    for. *)
Definition restore_plan (h d : path) (names : list string) : list (path * path) :=
  omap (fun n => match original_location h n with
                 | Some o => Some (d ++ [n], o)
                 | None => None
                 end) names.

(** A path no restore can write to. *)
Definition not_a_restore_target (h : path) (p : path) : Prop :=
  forall n o, original_location h n = Some o -> p <> o /\ p <> o ++ [n].

(** The record [list_snapshots] reads from the directory [d], if any. *)
Definition metadata_of (w : World) (d : path) : option json :=
  if FS.is_dir (fs w) d then
    match rbind (FS.read (fs w) (denied w) (d ++ ["metadata.json"])) json_load with
    | Returned v => Some v
    | Raised _ => None
    end
  else None.

Definition timestamp_of (x : json) : option string :=
  match getitem x "timestamp" with
  | Returned (JStr s) => Some s
  | _ => None
  end.


Definition logs (t : list event) : list (level * string) :=
  omap (fun e => match e with Log l m => Some (l, m) | _ => None end) t.

(** Two file systems with the same directories. *)
Definition same_dirs (f g : gmap path node) : Prop :=
  forall q, FS.node_at g q = Some Dir <-> FS.node_at f q = Some Dir.

(** A step that changes files and trace only, keeps every directory a
    directory, makes no new one, and shows no prompt. *)
Definition keeps (w w' : World) : Prop :=
  exists f t, w' = upd f t w /\ same_dirs (fs w) f /\ inputs t = inputs (trace w).

Definition user_of (w : World) : option string :=
  match environ w !! "USER" with
  | Some u => if Str.truthy u then Some u else environ w !! "USERNAME"
  | None => environ w !! "USERNAME"
  end.

Definition snapshot_id_of (w : World) (operation_name : string) : string :=
  operation_name +:+ "_" +:+ strftime (clock w).

(** The record [create_system_snapshot] writes in the world [w]. *)
Definition metadata_for (w : World) (operation_name : string) : json :=
  snapshot_metadata (snapshot_id_of w operation_name) (strftime (clock w)) operation_name
    (os_name w) (user_of w) (cwd w).

(** [p] is a directory, or is free in a directory where it may be
    created. *)
Definition directory_available (w : World) (p : path) : Prop :=
  FS.node_at (fs w) p = Some Dir
  \/ (FS.node_at (fs w) p = None
      /\ FS.node_at (fs w) (Path.parent p) = Some Dir
      /\ p ∉ denied w).

(** What [glob("*")] yields in the snapshot directory. *)
Definition snapshot_entries (w : World) (snapshot_dir : path) : list string :=
  if FS.is_dir (fs w) snapshot_dir then FS.children (fs w) snapshot_dir else [].

(** The [try] block of [safe_execute] from the confirmed prompt on, under
    its [except] clauses. *)
Definition guarded_execute (self : SuperUserAssistant) (command : string)
    (require_admin : bool) (snapshot_id : string) : M (bool * string * string) :=
  try_except (execute_command self command require_admin snapshot_id) execution_handlers.

Definition next_answers (a : nat -> string) : nat -> string := fun n => a (S n).

(** The world in which the command has just run: the two events of its
    start are in the trace, the files are as the process left them. *)
Definition after_run (w : World) (command : string) (require_admin : bool) : World :=
  let inv := command_invocation (os_name w) command require_admin in
  set_fs (snd (run_process w inv (fs w)))
    (set_trace ((trace w ++ [Log INFO ("Executing: " +:+ command)]) ++ [Subprocess inv]) w).

(** How the command ended. *)
Definition outcome_of (w : World) (command : string) (require_admin : bool) : proc_outcome :=
  fst (run_process w (command_invocation (os_name w) command require_admin) (fs w)).


(** The records [list_snapshots] can read in the backup root: for each entry
    of the root, in the order of the directory, what [metadata_of] finds. *)
Definition readable_records (self : SuperUserAssistant) (w : World) : list json :=
  omap (fun n => metadata_of w (backup_dir self ++ [n]))
    (FS.children (fs w) (backup_dir self)).


(** A record paired with its key, the key being its timestamp string. *)
Definition keyed (kx : json * json) : Prop :=
  exists s, fst kx = JStr s /\ timestamp_of (snd kx) = Some s.


(** A step that changes the trace and, among the files, only paths in
    [S]. *)
Definition touches (S : path -> Prop) (w w' : World) : Prop :=
  exists f t, w' = upd f t w /\ forall p, ~ S p -> f !! p = fs w !! p.

(** [p] is [d] or lies below it. *)
Definition under (d p : path) : Prop := exists k, p = d ++ k.

(** An event that shows or records text and does nothing else. *)
Definition quiet (e : event) : bool :=
  match e with
  | Log _ _ | Print _ => true
  | _ => false
  end.

(** A step that only logs and prints: files, registry and pending answers
    are as before, and the trace has grown by quiet events. *)
Definition says (w w' : World) : Prop :=
  exists evs, w' = set_trace (trace w ++ evs) w /\ forallb quiet evs = true.

(** A computation all of whose runs only log and print. *)
Definition speaks {A} (m : M A) : Prop :=
  forall w, exists r w', m w = (r, w') /\ says w w'.

(** The fields of a time stamp, the most significant first, and the
    order of two lists of fields. *)
Definition fields (t : datetime) : list nat :=
  [year t; month t; day t; hour t; minute t; second t].

Fixpoint lex (a b : list nat) : comparison :=
  match a, b with
  | [], [] => Eq
  | [], _ :: _ => Lt
  | _ :: _, [] => Gt
  | x :: a', y :: b' =>
      match Nat.compare x y with
      | Eq => lex a' b'
      | c => c
      end
  end.

(** [a] is before, at or after [b] in time. *)
Definition chronological (a b : datetime) : comparison := lex (fields a) (fields b).

(** The fields fit the widths [strftime] prints them in. *)
Definition four_and_two_digits (t : datetime) : Prop :=
  (year t < 100 * 100 /\ month t < 100 /\ day t < 100
   /\ hour t < 100 /\ minute t < 100 /\ second t < 100)%nat.

(** ** Example worlds *)

Module Example.

Definition u_home : path := ["home"; "u"].

Definition self : SuperUserAssistant :=
  {| backup_dir := ["home"; "u"; ".superuser-backups"];
     log_file := ["home"; "u"; ".superuser.log"] |}.

Definition old_snapshot : path := ["home"; "u"; ".superuser-backups"; "old_20240101_000000"].

Definition old_metadata : json :=
  snapshot_metadata "old_20240101_000000" "20240101_000000" "old" "posix" (Some "u") u_home.

(** A home directory with a shell profile, a backup root with one earlier
    snapshot (holding a stray file next to the backups), [/etc/hosts] and
    [/tmp]. *)
Definition files : gmap path node :=
  list_to_map
    [(["home"], Dir); (["home"; "u"], Dir);
     (["home"; "u"; ".bashrc"], File (Text "alias ll=ls"));
     (["home"; "u"; ".ssh"], Dir);
     (["home"; "u"; ".superuser-backups"], Dir);
     (old_snapshot, Dir);
     (old_snapshot ++ ["metadata.json"], File (JsonDoc old_metadata));
     (old_snapshot ++ [".bashrc"], File (Text "alias l=ls"));
     (old_snapshot ++ ["notes.txt"], File (Text "kept by hand"));
     (old_snapshot ++ ["registry_backup.reg"], File (Text "REGEDIT4"));
     (["etc"], Dir); (["etc"; "hosts"], File (Text "127.0.0.1 localhost"));
     (["tmp"], Dir)].

Definition at_9_march : datetime :=
  {| year := 2024; month := 3; day := 9; hour := 14; minute := 5; second := 7 |}.

(** The operator declines everything; commands exit with status 1. *)
Definition posix : World :=
  {| os_name := "posix"; home := u_home; cwd := u_home;
     environ := {[ "USER" := "u" ]};
     clock := at_9_march;
     fs := files; denied := ∅; registry := Text "";
     reg_status := fun _ => 0;
     run_process := fun _ f => (Exited 1 "" "boom", f);
     answers := fun _ => "no";
     trace := [] |}.

Definition with_answers (a : nat -> string) (w : World) : World := set_answers a w.

Definition with_process (r : invocation -> gmap path node -> proc_outcome * gmap path node)
    (w : World) : World :=
  {| os_name := os_name w; home := home w; cwd := cwd w; environ := environ w;
     clock := clock w; fs := fs w; denied := denied w; registry := registry w;
     reg_status := reg_status w; run_process := r;
     answers := answers w; trace := trace w |}.

(** The same machine under Windows, where the registry tool refuses to
    import. *)
Definition windows_reg_broken : World :=
  {| os_name := "nt"; home := u_home; cwd := u_home;
     environ := {[ "USERNAME" := "u" ]};
     clock := at_9_march;
     fs := files; denied := ∅; registry := Text "";
     reg_status := fun args => match args with
                               | ["reg"; "import"; _] => 1
                               | _ => 0
                               end;
     run_process := fun _ f => (Exited 1 "" "boom", f);
     answers := fun _ => "no";
     trace := [] |}.

(** The operator confirms; the command runs into the timeout. *)
Definition hanging : World :=
  with_process (fun _ f => (TimedOut, f)) (with_answers (fun _ => "yes") posix).

(** The backup root holds a directory whose [metadata.json] is valid JSON
    with no timestamp in it. *)
Definition tampered : World :=
  set_fs (<[ ["home"; "u"; ".superuser-backups"; "junk"; "metadata.json"] := File (Text "{}") ]>
          (<[ ["home"; "u"; ".superuser-backups"; "junk"] := Dir ]> files))
    posix.

(** The operator confirms the command and declines the rollback. *)
Definition yes_then_no : World :=
  with_answers (fun n => match n with O => "Yes" | _ => "no" end) posix.

(** The operator says yes to everything; the command removes the shell
    profile and fails. *)
Definition clobbered : World :=
  with_process
    (fun _ f => (Exited 1 "" "boom", delete ["home"; "u"; ".bashrc"] f))
    (with_answers (fun _ => "yes") posix).

End Example.

(** ** The monad and the primitives *)

Lemma bind_Returned {A B} (m : M A) (k : A -> M B) w a w' :
  m w = (Returned a, w') -> bind m k w = k a w'.
Proof. intros E. unfold bind. now rewrite E. Qed.

Lemma bind_Raised {A B} (m : M A) (k : A -> M B) w e w' :
  m w = (Raised e, w') -> bind m k w = (Raised e, w').
Proof. intros E. unfold bind. now rewrite E. Qed.

Lemma inputs_app t1 t2 : inputs (t1 ++ t2) = inputs t1 ++ inputs t2.
Proof. apply omap_app. Qed.

Lemma copies_app t1 t2 : copies (t1 ++ t2) = copies t1 ++ copies t2.
Proof. apply omap_app. Qed.

Lemma spawned_app t1 t2 : spawned (t1 ++ t2) = spawned t1 ++ spawned t2.
Proof. apply omap_app. Qed.

Lemma name_snoc (d : path) (n : string) : Path.name (d ++ [n]) = n.
Proof. unfold Path.name. apply last_last. Qed.

Lemma parent_snoc (d : path) (n : string) : Path.parent (d ++ [n]) = d.
Proof. unfold Path.parent. apply removelast_last. Qed.

(** ** The file system operations *)

Lemma upd_id (w : World) : upd (fs w) (trace w) w = w.
Proof. destruct w. reflexivity. Qed.

Lemma node_at_key (f : gmap path node) (p : path) : p <> [] -> FS.node_at f p = f !! p.
Proof. destruct p; [congruence | reflexivity]. Qed.

Lemma same_dirs_refl f : same_dirs f f.
Proof. intros q. reflexivity. Qed.

Lemma same_dirs_trans f g h : same_dirs f g -> same_dirs g h -> same_dirs f h.
Proof. intros H1 H2 q. etransitivity; [apply H2 | apply H1]. Qed.

Lemma write_Returned fs den p c f :
  FS.write fs den p c = Returned f ->
  f = <[p := File c]> fs /\ p <> [] /\ fs !! p <> Some Dir
  /\ FS.node_at fs (Path.parent p) = Some Dir /\ p ∉ den.
Proof.
  unfold FS.write, FS.parent_error. intros H.
  destruct p as [|c0 p].
  - simpl in H. discriminate.
  - set (k := c0 :: p) in *.
    assert (Hk : FS.node_at fs k = fs !! k) by reflexivity.
    rewrite Hk in H.
    destruct (FS.node_at fs (Path.parent k)) as [[|?]|] eqn:Hpar;
      destruct (fs !! k) as [[|?]|] eqn:Hn; try discriminate;
      destruct (decide (k ∈ den)); try discriminate;
      injection H as <-; repeat split; try congruence; done.
Qed.

Lemma write_same_dirs fs den p c f :
  FS.write fs den p c = Returned f -> same_dirs fs f.
Proof.
  intros H. apply write_Returned in H as (-> & Hne & Hnd & _ & _).
  intros q. destruct q as [|c0 q]; [reflexivity |].
  rewrite !node_at_key by discriminate.
  destruct (decide (p = c0 :: q)) as [<- | Hpq].
  - rewrite lookup_insert_eq. split; [discriminate | intros; contradiction].
  - rewrite lookup_insert_ne by assumption. reflexivity.
Qed.

Lemma write_frame fs den p c f q :
  FS.write fs den p c = Returned f -> q <> p -> f !! q = fs !! q.
Proof.
  intros H Hq. apply write_Returned in H as (-> & _). apply lookup_insert_ne. congruence.
Qed.

Lemma copy2_Returned fs den src dst f :
  FS.copy2 fs den src dst = Returned f ->
  exists c, FS.write fs den (FS.copy_target fs src dst) c = Returned f.
Proof.
  unfold FS.copy2. intros H.
  destruct (bool_decide _ && _)%bool; [discriminate |].
  destruct (FS.read fs den src) as [c|e]; simpl in H; [eauto | discriminate].
Qed.

Lemma mkdir_Returned fs den p f :
  FS.mkdir_exist_ok fs den p = Returned f ->
  FS.node_at f p = Some Dir
  /\ (forall q, q <> p -> f !! q = fs !! q)
  /\ (forall q, FS.node_at fs q = Some Dir -> FS.node_at f q = Some Dir)
  /\ (forall q, q <> p -> FS.node_at f q = Some Dir -> FS.node_at fs q = Some Dir).
Proof.
  unfold FS.mkdir_exist_ok. intros H.
  destruct (FS.node_at fs p) as [[|?]|] eqn:Hn; try discriminate.
  - injection H as <-. repeat split; auto.
  - destruct (FS.parent_error fs p); [discriminate |].
    destruct (decide (p ∈ den)); [discriminate |]. injection H as <-.
    assert (Hp : p <> []) by (intros ->; discriminate).
    repeat split.
    + rewrite node_at_key by assumption. apply lookup_insert_eq.
    + intros q Hq. apply lookup_insert_ne. congruence.
    + intros [|c0 q] Hq; [reflexivity |]. rewrite node_at_key in * by discriminate.
      destruct (decide (p = c0 :: q)) as [<- | Hpq]; [apply lookup_insert_eq |].
      rewrite lookup_insert_ne by assumption. exact Hq.
    + intros [|c0 q] Hq; [reflexivity |]. rewrite !node_at_key by discriminate.
      rewrite lookup_insert_ne by congruence. auto.
Qed.

(** ** Steps that keep the directories and show no prompt *)

Lemma keeps_refl w : keeps w w.
Proof. exists (fs w), (trace w). rewrite upd_id. split; [reflexivity |]. split; [apply same_dirs_refl | reflexivity]. Qed.

Lemma keeps_trans w1 w2 w3 : keeps w1 w2 -> keeps w2 w3 -> keeps w1 w3.
Proof.
  intros (f1 & t1 & -> & Hd1 & Hi1) (f2 & t2 & -> & Hd2 & Hi2).
  exists f2, t2. split; [reflexivity |]. simpl in *. split.
  - eapply same_dirs_trans; eassumption.
  - congruence.
Qed.

Lemma keeps_emit w e :
  (forall p, e <> Input p) -> keeps w (set_trace (trace w ++ [e]) w).
Proof.
  intros He. exists (fs w), (trace w ++ [e]). split; [destruct w; reflexivity |].
  split; [apply same_dirs_refl |].
  rewrite inputs_app. destruct e; simpl; try apply app_nil_r. now destruct (He prompt).
Qed.

Lemma keeps_set_fs w f : same_dirs (fs w) f -> keeps w (set_fs f w).
Proof.
  intros Hd. exists f, (trace w). split; [destruct w; reflexivity |]. split; [exact Hd | reflexivity].
Qed.

Lemma log_keeps lvl msg w : exists w', log lvl msg w = (Returned tt, w') /\ keeps w w'.
Proof. eexists. split; [reflexivity |]. apply keeps_emit. discriminate. Qed.

Lemma copy2_keeps src dst w : exists r w', copy2 src dst w = (r, w') /\ keeps w w'.
Proof.
  unfold copy2, bind, emit, fs_update. simpl.
  destruct (FS.copy2 (fs w) (denied w) src dst) as [f|e] eqn:Hc.
  - do 2 eexists. split; [reflexivity |].
    eapply keeps_trans; [apply (keeps_emit w (Copy2 src dst)); discriminate |].
    apply keeps_set_fs. simpl.
    apply copy2_Returned in Hc as [c Hc]. eapply write_same_dirs, Hc.
  - do 2 eexists. split; [reflexivity |]. apply keeps_emit. discriminate.
Qed.

Lemma for_each_keeps {A} (body : A -> M unit) (l : list A) :
  (forall x w, exists w', body x w = (Returned tt, w') /\ keeps w w') ->
  forall w, exists w', for_each l body w = (Returned tt, w') /\ keeps w w'.
Proof.
  intros Hbody. induction l as [|x l IH]; intros w; simpl.
  - exists w. split; [reflexivity | apply keeps_refl].
  - destruct (Hbody x w) as (w1 & E1 & K1). destruct (IH w1) as (w2 & E2 & K2).
    exists w2. split; [| eapply keeps_trans; eassumption].
    erewrite bind_Returned by exact E1. exact E2.
Qed.

Lemma backup_config_keeps snapshot_dir config_file w :
  exists w', backup_config snapshot_dir config_file w = (Returned tt, w') /\ keeps w w'.
Proof.
  destruct config_file as [cf|]; simpl; [| exists w; split; [reflexivity | apply keeps_refl]].
  unfold bind at 1. unfold path_exists, asks.
  destruct (FS.exists_ (fs w) cf); [| exists w; split; [reflexivity | apply keeps_refl]].
  unfold try_except, any_exception.
  destruct (copy2_keeps cf (snapshot_dir // Path.name cf) w) as (r & w1 & E1 & K1).
  destruct r as [[]|e].
  - erewrite bind_Returned by exact E1.
    destruct (log_keeps INFO ("Backed up: " +:+ Path.str cf) w1) as (w2 & E2 & K2).
    rewrite E2. exists w2. split; [reflexivity | eapply keeps_trans; eassumption].
  - erewrite bind_Raised by exact E1.
    match goal with |- context [log ?l ?m w1] => destruct (log_keeps l m w1) as (w2 & E2 & K2) end.
    rewrite E2. exists w2. split; [reflexivity | eapply keeps_trans; eassumption].
Qed.

Lemma backup_configs_keeps snapshot_dir w :
  exists w', backup_configs snapshot_dir w = (Returned tt, w') /\ keeps w w'.
Proof.
  unfold backup_configs, bind at 1 2, asks, path_exists.
  apply for_each_keeps. apply backup_config_keeps.
Qed.

Lemma backup_registry_keeps snapshot_dir w :
  exists w', backup_registry snapshot_dir w = (Returned tt, w') /\ keeps w w'.
Proof.
  unfold backup_registry, bind at 1, asks.
  destruct (String.eqb (os_name w) "nt"); [| exists w; split; [reflexivity | apply keeps_refl]].
  unfold try_except, reg_export, bind, emit. simpl.
  set (args := ["reg"; "export"; "HKEY_CURRENT_USER"; _]).
  set (w0 := set_trace (trace w ++ [Subprocess (Argv args)]) w).
  assert (K0 : keeps w w0) by (apply keeps_emit; discriminate).
  destruct (Z.eqb (reg_status w args) 0).
  - destruct (FS.write (fs w) (denied w) _ (registry w)) as [f|e] eqn:Hw.
    + eexists. split; [reflexivity |].
      eapply keeps_trans; [exact K0 |]. eapply keeps_trans; [apply (keeps_set_fs w0 f) |].
      * simpl. eapply write_same_dirs, Hw.
      * apply keeps_emit. discriminate.
    + eexists. split; [reflexivity |].
      eapply keeps_trans; [exact K0 |]. apply keeps_emit. discriminate.
  - eexists. split; [reflexivity |].
    eapply keeps_trans; [exact K0 |]. apply keeps_emit. discriminate.
Qed.

(** ** Creating a snapshot *)

Lemma current_user_spec w : current_user w = (Returned (user_of w), w).
Proof.
  unfold current_user, user_of, bind, getenv, asks.
  destruct (environ w !! "USER") as [u|]; [| reflexivity].
  destruct (Str.truthy u); reflexivity.
Qed.

Lemma save_metadata_spec sdir id ts op w :
  save_metadata sdir id ts op w
  = match FS.write (fs w) (denied w) (sdir ++ ["metadata.json"])
            (JsonDoc (snapshot_metadata id ts op (os_name w) (user_of w) (cwd w))) with
    | Returned f => (Returned tt, set_fs f w)
    | Raised e => (Raised e, w)
    end.
Proof.
  unfold save_metadata, bind at 1 2, asks. rewrite current_user_spec.
  reflexivity.
Qed.

(** [create_system_snapshot] is: make the directory; log, export and copy,
    none of which can fail the call or touch a directory; write the
    metadata. *)
Lemma create_system_snapshot_steps self op w :
  let sdir := backup_dir self // snapshot_id_of w op in
  match FS.mkdir_exist_ok (fs w) (denied w) sdir with
  | Raised e => create_system_snapshot self op w = (Raised e, w)
  | Returned f1 =>
      exists w1,
        keeps (set_fs f1 w) w1
        /\ create_system_snapshot self op w
           = match FS.write (fs w1) (denied w) (sdir ++ ["metadata.json"])
                     (JsonDoc (metadata_for w op)) with
             | Returned f' => (Returned (snapshot_id_of w op), set_fs f' w1)
             | Raised e => (Raised e, w1)
             end
  end.
Proof.
  intros sdir. unfold create_system_snapshot, snapshot_id_of, metadata_for in *.
  cbv beta iota delta [bind asks mkdir_exist_ok fs_update].
  set (id := op +:+ "_" +:+ strftime (clock w)) in *. fold sdir.
  destruct (FS.mkdir_exist_ok (fs w) (denied w) sdir) as [f1|e]; [| reflexivity].
  set (w0 := set_fs f1 w).
  destruct (log_keeps INFO ("Creating system snapshot: " +:+ id) w0) as (wa & Ea & Ka).
  destruct (backup_registry_keeps sdir wa) as (wb & Eb & Kb).
  destruct (backup_configs_keeps sdir wb) as (wc & Ec & Kc).
  assert (K : keeps w0 wc) by (eapply keeps_trans; [exact Ka | eapply keeps_trans; eassumption]).
  exists wc. split; [exact K |].
  rewrite Ea, Eb, Ec, save_metadata_spec.
  destruct K as (f & t & -> & _ & _). simpl.
  destruct (FS.write _ _ _ _); reflexivity.
Qed.

Lemma create_outcome self op w r w' :
  create_system_snapshot self op w = (r, w') ->
  exists f t, w' = upd f t w /\ inputs t = inputs (trace w)
    /\ (forall q, FS.node_at (fs w) q = Some Dir -> FS.node_at f q = Some Dir)
    /\ forall id, r = Returned id ->
         id = snapshot_id_of w op
         /\ FS.is_dir f (backup_dir self // id) = true
         /\ f !! (backup_dir self // id ++ ["metadata.json"])
            = Some (File (JsonDoc (metadata_for w op)))
         /\ backup_dir self // id ++ ["metadata.json"] ∉ denied w.
Proof.
  intros E. pose proof (create_system_snapshot_steps self op w) as S. simpl in S.
  set (sdir := backup_dir self // snapshot_id_of w op) in *.
  destruct (FS.mkdir_exist_ok (fs w) (denied w) sdir) as [f1|e] eqn:Hmk.
  - destruct S as (w1 & (f & t & -> & Hd & Hi) & S). rewrite S in E. clear S. simpl in *.
    apply mkdir_Returned in Hmk as (Hdir & _ & Hup & _).
    assert (Hkeep : forall q, FS.node_at (fs w) q = Some Dir -> FS.node_at f q = Some Dir)
      by (intros q Hq; apply Hd, Hup, Hq).
    destruct (FS.write f (denied w) _ _) as [f'|e] eqn:Hw.
    + injection E as <- <-. exists f', t. split; [reflexivity |]. split; [exact Hi |].
      pose proof (write_same_dirs _ _ _ _ _ Hw) as Hd'.
      split; [intros q Hq; apply Hd', Hkeep, Hq |].
      intros id [= <-]. fold sdir. split; [reflexivity |].
      apply write_Returned in Hw as (-> & _ & _ & _ & Hden).
      split; [| split; [apply lookup_insert_eq | exact Hden]].
      unfold FS.is_dir.
      replace (FS.node_at (<[sdir ++ ["metadata.json"] := _]> f) sdir) with (Some Dir);
        [reflexivity |].
      symmetry. apply Hd', Hd, Hdir.
    + injection E as <- <-. exists f, t. split; [reflexivity |]. split; [exact Hi |].
      split; [exact Hkeep | discriminate].
  - rewrite S in E. injection E as <- <-. exists (fs w), (trace w).
    split; [symmetry; apply upd_id |]. split; [reflexivity |]. split; [auto | discriminate].
Qed.

(** ** Rolling back *)

Lemma logs_app t1 t2 : logs (t1 ++ t2) = logs t1 ++ logs t2.
Proof. apply omap_app. Qed.

Lemma skipped_names_unmapped h n :
  Str.mem n ["metadata.json"; "registry_backup.reg"] = true -> original_location h n = None.
Proof.
  unfold Str.mem. cbn [existsb]. intros H.
  destruct (String.eqb_spec n "metadata.json") as [E | _]; [subst n; reflexivity |].
  destruct (String.eqb_spec n "registry_backup.reg") as [E | _];
    [subst n; reflexivity | discriminate].
Qed.

(** The restore table, read back. *)
Lemma original_location_Some h n o :
  original_location h n = Some o <->
  (n = ".bashrc" /\ o = h ++ [".bashrc"])
  \/ (n = "config" /\ o = h ++ [".ssh"; "config"])
  \/ (n = "hosts" /\ o = ["etc"; "hosts"]).
Proof.
  unfold original_location, Str.mem. cbn [existsb]. split.
  - destruct (String.eqb_spec n ".bashrc") as [E | N1]; cbn [orb].
    + subst n. intros [= <-]. left. split; reflexivity.
    + destruct (String.eqb_spec n "config") as [E | N2]; cbn [orb].
      * subst n. intros [= <-]. right. left. split; [reflexivity |].
        unfold Path.join. simpl. now rewrite <- app_assoc.
      * destruct (String.eqb_spec n "hosts") as [E | N3]; [| discriminate].
        subst n. intros [= <-]. right. right. split; reflexivity.
  - intros [[E1 E2] | [[E1 E2] | [E1 E2]]]; subst n o; simpl; try reflexivity.
    unfold Path.join. simpl. now rewrite <- app_assoc.
Qed.

(** A backup whose name is not in the table is passed over: nothing is
    copied, nothing is logged. *)
Lemma restore_file_unmapped d n w :
  original_location (home w) n = None -> restore_file (d ++ [n]) w = (Returned tt, w).
Proof.
  intros Hn. unfold restore_file. rewrite name_snoc.
  destruct (Str.mem n _); [reflexivity |].
  unfold bind, asks. rewrite Hn. reflexivity.
Qed.

Lemma copy_target_cases fs d n o :
  FS.copy_target fs (d ++ [n]) o = o \/ FS.copy_target fs (d ++ [n]) o = o ++ [n].
Proof.
  unfold FS.copy_target. rewrite name_snoc. destruct (FS.is_dir fs o); auto.
Qed.

Lemma restore_file_spec d n w :
  exists f t,
    restore_file (d ++ [n]) w = (Returned tt, upd f t w)
    /\ copies t = copies (trace w) ++ restore_plan (home w) d [n]
    /\ (forall p, not_a_restore_target (home w) p -> f !! p = fs w !! p)
    /\ trace w `prefix_of` t
    /\ inputs t = inputs (trace w)
    /\ spawned t = spawned (trace w).
Proof.
  destruct (original_location (home w) n) as [o|] eqn:Ho.
  - unfold restore_file. rewrite name_snoc.
    destruct (Str.mem n _) eqn:Hskip;
      [apply (skipped_names_unmapped (home w)) in Hskip; congruence |].
    unfold bind at 1, asks. rewrite Ho.
    cbv beta iota delta [try_except any_exception bind copy2 emit fs_update log].
    simpl.
    unfold restore_plan. simpl. rewrite Ho.
    destruct (FS.copy2 (fs w) (denied w) (d ++ [n]) o) as [f|e] eqn:Hc; simpl.
    + exists f. eexists. split; [reflexivity |].
      rewrite !copies_app, !inputs_app, !spawned_app. simpl. rewrite !app_nil_r.
      repeat split; try reflexivity.
      * intros p Hp. apply copy2_Returned in Hc as [c Hc].
        eapply write_frame; [exact Hc |].
        destruct (Hp n o Ho) as [P1 P2].
        destruct (copy_target_cases (fs w) d n o) as [-> | ->]; assumption.
      * rewrite <- app_assoc. eexists. reflexivity.
    + exists (fs w). eexists. split; [reflexivity |].
      rewrite !copies_app, !inputs_app, !spawned_app. simpl. rewrite !app_nil_r.
      repeat split; try reflexivity.
      rewrite <- app_assoc. eexists. reflexivity.
  - exists (fs w), (trace w). rewrite upd_id, restore_file_unmapped by assumption.
    unfold restore_plan. simpl. rewrite Ho, app_nil_r. repeat split; reflexivity.
Qed.

Lemma restore_plan_cons h d n names :
  restore_plan h d (n :: names) = restore_plan h d [n] ++ restore_plan h d names.
Proof. unfold restore_plan. simpl. destruct (original_location h n); reflexivity. Qed.

Lemma restore_loop_spec d names : forall w,
  exists f t,
    for_each (map (fun n => d ++ [n]) names) restore_file w = (Returned tt, upd f t w)
    /\ copies t = copies (trace w) ++ restore_plan (home w) d names
    /\ (forall p, not_a_restore_target (home w) p -> f !! p = fs w !! p)
    /\ trace w `prefix_of` t
    /\ inputs t = inputs (trace w)
    /\ spawned t = spawned (trace w).
Proof.
  induction names as [|n names IH]; intros w; cbn [map for_each].
  - exists (fs w), (trace w). rewrite upd_id.
    unfold restore_plan. simpl. rewrite app_nil_r. repeat split; reflexivity.
  - destruct (restore_file_spec d n w) as (f1 & t1 & E1 & C1 & F1 & P1 & I1 & S1).
    destruct (IH (upd f1 t1 w)) as (f2 & t2 & E2 & C2 & F2 & P2 & I2 & S2).
    change (home (upd f1 t1 w)) with (home w) in *.
    change (fs (upd f1 t1 w)) with f1 in *.
    change (trace (upd f1 t1 w)) with t1 in *.
    change (upd f2 t2 (upd f1 t1 w)) with (upd f2 t2 w) in E2.
    exists f2, t2. split; [erewrite bind_Returned by exact E1; exact E2 |].
    split; [rewrite C2, C1, (restore_plan_cons _ _ n names), app_assoc; reflexivity |].
    split; [intros p Hp; rewrite F2, F1 by assumption; reflexivity |].
    split; [etransitivity; eassumption |].
    split; congruence.
Qed.

Lemma restore_registry_spec sdir w :
  exists r t,
    restore_registry sdir w
    = (Returned (negb (registry_restore_fails w sdir)), set_registry r (set_trace t w))
    /\ trace w `prefix_of` t
    /\ copies t = copies (trace w)
    /\ inputs t = inputs (trace w)
    /\ (registry_restore_fails w sdir = true -> r = registry w)
    /\ (registry_restore_fails w sdir = false ->
        String.eqb (os_name w) "nt" = false -> t = trace w /\ r = registry w).
Proof.
  unfold restore_registry, registry_restore_fails.
  cbv beta iota delta [bind asks path_exists try_except reg_import emit log
                       only_called_process_error ret].
  fold (reg_import_args sdir).
  destruct (String.eqb (os_name w) "nt"); cbn [andb negb].
  2:{ exists (registry w), (trace w). split; [destruct w; reflexivity |].
      repeat split; reflexivity. }
  destruct (FS.exists_ (fs w) (sdir // "registry_backup.reg")); cbn [andb negb].
  2:{ exists (registry w), (trace w). split; [destruct w; reflexivity |].
      repeat split; try reflexivity; discriminate. }
  set (t0 := trace w ++ [Subprocess (Argv (reg_import_args sdir))]).
  assert (P0 : forall l, trace w `prefix_of` (t0 ++ l))
    by (intros l; unfold t0; rewrite <- app_assoc; eexists; reflexivity).
  assert (C0 : forall e, copies [e] = [] -> copies (t0 ++ [e]) = copies (trace w))
    by (intros e He; unfold t0; rewrite !copies_app, He; simpl; now rewrite !app_nil_r).
  assert (I0 : forall e, inputs [e] = [] -> inputs (t0 ++ [e]) = inputs (trace w))
    by (intros e He; unfold t0; rewrite !inputs_app, He; simpl; now rewrite !app_nil_r).
  cbn [reg_status fs trace set_trace set_registry].
  change (reg_status (set_trace t0 w)) with (reg_status w).
  destruct (Z.eqb (reg_status w (reg_import_args sdir)) 0); cbn [negb].
  - change (fs (set_trace t0 w)) with (fs w).
    destruct (FS.node_at (fs w) (sdir // "registry_backup.reg")) as [[|c]|].
    + exists (registry w), (t0 ++ [Log INFO "Registry restored"]).
      split; [destruct w; reflexivity |].
      repeat split; auto; discriminate.
    + exists c, (t0 ++ [Log INFO "Registry restored"]).
      split; [destruct w; reflexivity |].
      repeat split; auto; discriminate.
    + exists (registry w), (t0 ++ [Log INFO "Registry restored"]).
      split; [destruct w; reflexivity |].
      repeat split; auto; discriminate.
  - eexists (registry w), (t0 ++ [_]).
    split; [destruct w; reflexivity |].
    repeat split; auto; discriminate.
Qed.

(** What a rollback of an existing snapshot does, in full. *)
Lemma rollback_snapshot_spec self id w :
  let sdir := backup_dir self // id in
  let fails := registry_restore_fails w sdir in
  FS.exists_ (fs w) sdir = true ->
  exists f t r,
    rollback_snapshot self id w = (Returned (negb fails), set_registry r (upd f t w))
    /\ copies t = copies (trace w)
                  ++ (if fails then [] else restore_plan (home w) sdir (snapshot_entries w sdir))
    /\ (forall p, not_a_restore_target (home w) p -> f !! p = fs w !! p)
    /\ (fails = true -> f = fs w /\ r = registry w)
    /\ (trace w ++ [Log INFO ("Rolling back to snapshot: " +:+ id)]) `prefix_of` t
    /\ inputs t = inputs (trace w).
Proof.
  intros sdir fails Hex. unfold rollback_snapshot. fold sdir.
  unfold bind at 1, path_exists, asks. rewrite Hex. simpl.
  unfold bind at 1, log, emit.
  set (w0 := set_trace (trace w ++ [Log INFO ("Rolling back to snapshot: " +:+ id)]) w).
  destruct (restore_registry_spec sdir w0) as (r & t1 & E1 & P1 & C1 & I1 & R1 & _).
  assert (Hfails : registry_restore_fails w0 sdir = fails) by reflexivity.
  rewrite Hfails in *.
  erewrite bind_Returned by exact E1.
  destruct fails eqn:Hf; simpl.
  - exists (fs w), t1, r. split; [reflexivity |].
    rewrite C1. unfold w0. simpl. rewrite copies_app. simpl. rewrite !app_nil_r.
    split; [reflexivity |]. split; [reflexivity |].
    split; [intros _; split; [reflexivity | apply R1; reflexivity] |].
    split; [exact P1 |].
    rewrite I1. unfold w0. simpl. rewrite inputs_app. simpl. apply app_nil_r.
  - unfold bind at 1, glob_star, asks. simpl.
    fold (snapshot_entries w sdir).
    replace (if FS.is_dir (fs w) sdir then map (fun n => sdir ++ [n]) (FS.children (fs w) sdir)
             else [])
      with (map (fun n => sdir ++ [n]) (snapshot_entries w sdir))
      by (unfold snapshot_entries; destruct (FS.is_dir (fs w) sdir); reflexivity).
    destruct (restore_loop_spec sdir (snapshot_entries w sdir)
                (set_registry r (set_trace t1 w0)))
      as (f2 & t2 & E2 & C2 & F2 & P2 & I2 & _).
    simpl in *.
    erewrite bind_Returned by exact E2. simpl.
    exists f2, t2, r. split; [reflexivity |].
    split; [rewrite C2, C1, copies_app; simpl; rewrite app_nil_r; reflexivity |].
    split; [exact F2 |]. split; [discriminate |].
    split; [etransitivity; eassumption |].
    rewrite I2, I1, inputs_app. simpl. apply app_nil_r.
Qed.

Lemma rollback_missing_step self id w :
  FS.exists_ (fs w) (backup_dir self // id) = false ->
  rollback_snapshot self id w
  = (Returned false, set_trace (trace w ++ [Log ERROR ("Snapshot not found: " +:+ id)]) w).
Proof.
  intros Hmissing. unfold rollback_snapshot, bind, path_exists, asks.
  rewrite Hmissing. reflexivity.
Qed.

(** A rollback always returns, and logs first. *)
Lemma rollback_snapshot_returns self id w :
  exists b w' evs,
    rollback_snapshot self id w = (Returned b, w')
    /\ trace w' = trace w ++ evs
    /\ (exists l m more, logs evs = (l, m) :: more)
    /\ inputs (trace w') = inputs (trace w).
Proof.
  destruct (FS.exists_ (fs w) (backup_dir self // id)) eqn:Hex.
  - destruct (rollback_snapshot_spec self id w Hex) as (f & t & r & E & _ & _ & _ & [evs P] & I).
    do 2 eexists. exists (Log INFO ("Rolling back to snapshot: " +:+ id) :: evs).
    split; [exact E |]. simpl.
    split; [rewrite P, <- app_assoc; reflexivity |].
    split; [do 3 eexists; reflexivity | exact I].
  - do 3 eexists. split; [apply rollback_missing_step, Hex |]. simpl.
    split; [reflexivity |]. split; [do 3 eexists; reflexivity |].
    rewrite inputs_app. simpl. apply app_nil_r.
Qed.

(** ** The confirm / execute / rollback loop *)

Lemma try_except_Returned {A} (m : M A) h w a w' :
  m w = (Returned a, w') -> try_except m h w = (Returned a, w').
Proof. intros E. unfold try_except. now rewrite E. Qed.

Lemma try_except_bind {A B} (m : M A) (k : A -> M B) h w a w' :
  m w = (Returned a, w') -> try_except (bind m k) h w = try_except (k a) h w'.
Proof. intros E. unfold try_except, bind. now rewrite E. Qed.

Lemma announce_spec cmd op admin id w :
  exists t,
    announce cmd op admin id w = (Returned tt, set_trace t w)
    /\ inputs t = inputs (trace w) /\ spawned t = spawned (trace w)
    /\ copies t = copies (trace w) /\ logs t = logs (trace w).
Proof.
  unfold announce. cbv beta iota delta [bind print emit ret].
  destruct admin; eexists; (split; [reflexivity |]); cbn [trace set_trace];
    rewrite !inputs_app, !spawned_app, !copies_app, !logs_app; simpl;
    rewrite !app_nil_r; repeat split; reflexivity.
Qed.

(** Up to the answer to the first prompt. *)
Lemma confirm_and_execute_asks self cmd op admin id w :
  exists t,
    inputs t = inputs (trace w) ++ [confirm_prompt]
    /\ spawned t = spawned (trace w) /\ copies t = copies (trace w)
    /\ logs t = logs (trace w)
    /\ try_except (confirm_and_execute self cmd op admin id) execution_handlers w
       = if affirmative (answers w 0%nat)
         then guarded_execute self cmd admin id (set_answers (next_answers (answers w)) (set_trace t w))
         else (Returned cancelled,
               set_trace (t ++ [Print "❌ Operation cancelled by user"])
                 (set_answers (next_answers (answers w)) (set_trace t w))).
Proof.
  destruct (announce_spec cmd op admin id w) as (t & E & I & S & C & L).
  exists (t ++ [Input confirm_prompt]).
  rewrite inputs_app, spawned_app, copies_app, logs_app, I, S, C, L. simpl.
  rewrite !app_nil_r. repeat split.
  unfold confirm_and_execute. erewrite try_except_bind by exact E.
  unfold input, guarded_execute.
  cbv beta iota delta [try_except bind emit print ret]. cbn [answers trace set_trace set_answers].
  destruct (affirmative (answers w 0%nat)); reflexivity.
Qed.

Lemma execute_command_spec self cmd admin id w :
  execute_command self cmd admin id w
  = match outcome_of w cmd admin with
    | Exited rc out err => report_result self id (rc, out, err) (after_run w cmd admin)
    | TimedOut =>
        (Raised (TimeoutExpired (command_invocation (os_name w) cmd admin) 300),
         after_run w cmd admin)
    | LaunchFailed msg => (Raised (OSError msg), after_run w cmd admin)
    end.
Proof.
  unfold execute_command, outcome_of, after_run, subprocess_run.
  cbv beta iota delta [bind log emit asks].
  cbn [os_name run_process fs trace set_trace].
  destruct (run_process w _ (fs w)) as [[rc out err| |msg] f]; reflexivity.
Qed.

Lemma after_run_facts w cmd admin :
  inputs (trace (after_run w cmd admin)) = inputs (trace w)
  /\ copies (trace (after_run w cmd admin)) = copies (trace w)
  /\ spawned (trace (after_run w cmd admin))
     = spawned (trace w) ++ [command_invocation (os_name w) cmd admin]
  /\ logs (trace (after_run w cmd admin)) = logs (trace w) ++ [(INFO, "Executing: " +:+ cmd)]
  /\ registry (after_run w cmd admin) = registry w
  /\ answers (after_run w cmd admin) = answers w.
Proof.
  unfold after_run. cbn [trace set_trace set_fs registry answers].
  rewrite !inputs_app, !copies_app, !spawned_app, !logs_app. simpl.
  rewrite !app_nil_r. repeat split; reflexivity.
Qed.

(** The command exits with status 0. *)
Lemma report_success self id out err w :
  exists t,
    report_result self id (0, out, err) w = (Returned (true, out, err), set_trace t w)
    /\ inputs t = inputs (trace w) /\ spawned t = spawned (trace w)
    /\ copies t = copies (trace w).
Proof.
  unfold report_result. cbv beta iota delta [bind log print emit ret Z.eqb].
  destruct (Str.truthy out); eexists; (split; [reflexivity |]); cbn [trace set_trace];
    rewrite !inputs_app, !spawned_app, !copies_app; simpl; rewrite !app_nil_r;
    repeat split; reflexivity.
Qed.

(** The command exits with another status: the world [w_f] in which the
    second prompt has been answered, and what follows from the answer. *)
Lemma report_failure self id rc out err w :
  rc <> 0 ->
  exists t,
    let w_f := set_answers (next_answers (answers w)) (set_trace t w) in
    inputs t = inputs (trace w) ++ [rollback_prompt]
    /\ spawned t = spawned (trace w) /\ copies t = copies (trace w)
    /\ logs t = logs (trace w) ++ [(ERROR, "❌ Operation failed: " +:+ err)]
    /\ if affirmative (answers w 0%nat) then
         exists b w3 evs,
           rollback_snapshot self id w_f = (Returned b, w3)
           /\ trace w3 = trace w_f ++ evs
           /\ (exists l m more, logs evs = (l, m) :: more)
           /\ inputs (trace w3) = inputs (trace w_f)
           /\ report_result self id (rc, out, err) w
              = (Returned (false, out, err),
                 set_trace (trace w3 ++ [Print (if b : bool
                                                then "✅ Successfully rolled back changes"
                                                else "❌ Rollback failed - check logs")]) w3)
       else report_result self id (rc, out, err) w = (Returned (false, out, err), w_f).
Proof.
  intros Hrc. apply Z.eqb_neq in Hrc.
  exists ((((trace w ++ [Log ERROR ("❌ Operation failed: " +:+ err)])
            ++ [Print (Str.nl +:+ "❌ Operation failed!")])
           ++ [Print ("🔥 Error: " +:+ err)]) ++ [Input rollback_prompt]).
  match goal with |- let w_f := ?x in _ => set (w_f := x) end.
  split; [| split; [| split; [| split]]]; cycle 4.
  - unfold report_result. rewrite Hrc. unfold offer_rollback, input.
    cbv beta iota delta [bind log print emit ret].
    cbn [answers trace set_trace set_answers].
    destruct (affirmative (answers w 0%nat)).
    + destruct (rollback_snapshot_returns self id w_f) as (b & w3 & evs & E & T & L & I).
      exists b, w3, evs.
      split; [exact E |]. split; [exact T |]. split; [exact L |]. split; [exact I |].
      match goal with |- context [rollback_snapshot self id ?x] => change x with w_f end.
      rewrite E. destruct b; reflexivity.
    + reflexivity.
  - rewrite !inputs_app. simpl. rewrite !app_nil_r. reflexivity.
  - rewrite !spawned_app. simpl. rewrite !app_nil_r. reflexivity.
  - rewrite !copies_app. simpl. rewrite !app_nil_r. reflexivity.
  - rewrite !logs_app. simpl. rewrite !app_nil_r. reflexivity.
Qed.

Lemma report_result_returns self id rc out err w :
  exists w', report_result self id (rc, out, err) w = (Returned (Z.eqb rc 0, out, err), w').
Proof.
  destruct (Z.eq_dec rc 0) as [-> | Hrc].
  - destruct (report_success self id out err w) as (t & E & _). eexists. exact E.
  - destruct (report_failure self id rc out err w Hrc) as (t & _ & _ & _ & _ & H).
    cbv zeta in H. apply Z.eqb_neq in Hrc. rewrite Hrc.
    destruct (affirmative (answers w 0%nat)).
    + destruct H as (b & w3 & evs & _ & _ & _ & _ & E). eexists. exact E.
    + eexists. exact H.
Qed.

(** The confirmed execution, by the way the command ends. *)
Lemma guarded_execute_spec self cmd admin id w :
  guarded_execute self cmd admin id w
  = match outcome_of w cmd admin with
    | Exited rc out err => report_result self id (rc, out, err) (after_run w cmd admin)
    | TimedOut =>
        (Returned timed_out,
         set_trace (trace (after_run w cmd admin) ++ [Log ERROR "Command timed out"])
           (after_run w cmd admin))
    | LaunchFailed msg =>
        (Returned (false, "", msg),
         set_trace (trace (after_run w cmd admin)
                    ++ [Log ERROR ("Execution failed: " +:+ msg)])
           (after_run w cmd admin))
    end.
Proof.
  unfold guarded_execute, try_except. rewrite execute_command_spec.
  destruct (outcome_of w cmd admin) as [rc out err| |msg]; try reflexivity.
  destruct (report_result_returns self id rc out err (after_run w cmd admin)) as [w' E].
  rewrite E. reflexivity.
Qed.

Lemma safe_execute_steps self cmd op admin w :
  safe_execute self cmd op admin w
  = match create_system_snapshot self op w with
    | (Returned id, w1) =>
        try_except (confirm_and_execute self cmd op admin id) execution_handlers w1
    | (Raised e, w1) => (Raised e, w1)
    end.
Proof. reflexivity. Qed.


(** ** The claims on [safe_execute] *)

(** C10. [safe_execute] creates the snapshot first.  When the creation
    raises, the call raises and no prompt was shown.  When it returns, no
    prompt has been shown yet, and the snapshot directory with its
    [metadata.json] is on disk; when the operator then declines, the result
    is the cancellation, the only prompt shown was the confirmation, and
    the files are exactly as the creation left them: the snapshot is still
    there. *)
Theorem snapshot_precedes_prompt (self : SuperUserAssistant) (cmd op : string)
    (admin : bool) (w : World) :
  match create_system_snapshot self op w with
  | (Raised e, w1) =>
      safe_execute self cmd op admin w = (Raised e, w1)
      /\ inputs (trace w1) = inputs (trace w)
  | (Returned id, w1) =>
      inputs (trace w1) = inputs (trace w)
      /\ FS.is_dir (fs w1) (backup_dir self // id) = true
      /\ fs w1 !! (backup_dir self // id ++ ["metadata.json"])
         = Some (File (JsonDoc (metadata_for w op)))
      /\ (affirmative (answers w 0%nat) = false ->
          exists w2,
            safe_execute self cmd op admin w = (Returned cancelled, w2)
            /\ inputs (trace w2) = inputs (trace w) ++ [confirm_prompt]
            /\ fs w2 = fs w1
            /\ FS.is_dir (fs w2) (backup_dir self // id) = true
            /\ fs w2 !! (backup_dir self // id ++ ["metadata.json"])
               = Some (File (JsonDoc (metadata_for w op))))
  end.
Proof.
  rewrite safe_execute_steps.
  destruct (create_system_snapshot self op w) as [[id|e] w1] eqn:E;
    destruct (create_outcome self op w _ _ E) as (f & t & -> & I & _ & Hpost).
  - destruct (Hpost id eq_refl) as (_ & Hdir & Hmeta & _).
    cbn [trace fs upd set_trace set_fs] in *.
    split; [exact I |]. split; [exact Hdir |]. split; [exact Hmeta |].
    intros Hno.
    destruct (confirm_and_execute_asks self cmd op admin id (upd f t w))
      as (tc & Ic & _ & _ & _ & Ec).
    change (answers (upd f t w)) with (answers w) in Ec. rewrite Hno in Ec.
    eexists. split; [exact Ec |]. cbn [trace fs upd set_trace set_fs set_answers] in *.
    rewrite inputs_app, Ic, I. simpl. rewrite app_nil_r. repeat split; assumption.
  - split; [reflexivity | exact I].
Qed.

Lemma snapshot_precedes_prompt_witness :
  exists w2,
    safe_execute Example.self "rm -rf build" "cleanup" false Example.posix
    = (Returned cancelled, w2)
    /\ FS.is_dir (fs w2) (backup_dir Example.self // "cleanup_20240309_140507") = true.
Proof.
  pose proof (snapshot_precedes_prompt Example.self "rm -rf build" "cleanup" false
                Example.posix) as H.
  assert (Hfst : fst (create_system_snapshot Example.self "cleanup" Example.posix)
                 = Returned "cleanup_20240309_140507") by (vm_compute; reflexivity).
  destruct (create_system_snapshot Example.self "cleanup" Example.posix) as [r w1].
  simpl in Hfst. subst r. destruct H as (_ & _ & _ & Hdecl).
  destruct (Hdecl eq_refl) as (w2 & Es & _ & _ & Hd & _).
  exists w2. split; [exact Es | exact Hd].
Defined.





(** The confirmed call, once the snapshot is taken. *)
Lemma safe_execute_confirmed self cmd op admin w id f t :
  create_system_snapshot self op w = (Returned id, upd f t w) ->
  affirmative (answers w 0%nat) = true ->
  exists tc,
    inputs tc = inputs t ++ [confirm_prompt]
    /\ spawned tc = spawned t /\ copies tc = copies t /\ logs tc = logs t
    /\ safe_execute self cmd op admin w
       = guarded_execute self cmd admin id (set_answers (next_answers (answers w)) (upd f tc w)).
Proof.
  intros E Hyes. rewrite safe_execute_steps, E.
  destruct (confirm_and_execute_asks self cmd op admin id (upd f t w))
    as (tc & Ic & Sc & Cc & Lc & Ec).
  change (answers (upd f t w)) with (answers w) in Ec. rewrite Hyes in Ec.
  exists tc. repeat split; assumption.
Qed.



(** C2, as the code has it.  When the confirmed command exits with a status
    other than 0, a second prompt offers the rollback: in the world [w_f]
    where it has been answered, the files are as the command left them and
    nothing has been restored; with an affirmative answer
    [rollback_snapshot] runs from there and the call returns in the world it
    leaves, with any other answer the call returns in [w_f] itself.  When
    the command times out or cannot be started, the call returns its
    failure with no second prompt and no rollback. *)
Theorem rollback_offered_after_failed_exit (self : SuperUserAssistant) (cmd op : string)
    (admin : bool) (w : World) (id : string) (w1 : World) (outcome : proc_outcome)
    (f' : gmap path node) :
  create_system_snapshot self op w = (Returned id, w1) ->
  affirmative (answers w 0%nat) = true ->
  run_process w (command_invocation (os_name w) cmd admin) (fs w1) = (outcome, f') ->
  (forall rc out err, outcome = Exited rc out err -> rc <> 0 ->
     exists w_f,
       inputs (trace w_f) = inputs (trace w) ++ [confirm_prompt; rollback_prompt]
       /\ fs w_f = f'
       /\ registry w_f = registry w
       /\ copies (trace w_f) = copies (trace w1)
       /\ logs (trace w_f)
          = logs (trace w1) ++ [(INFO, "Executing: " +:+ cmd);
                                (ERROR, "❌ Operation failed: " +:+ err)]
       /\ (affirmative (answers w 1%nat) = true ->
           exists b w3 w2,
             rollback_snapshot self id w_f = (Returned b, w3)
             /\ safe_execute self cmd op admin w = (Returned (false, out, err), w2)
             /\ fs w2 = fs w3 /\ registry w2 = registry w3
             /\ inputs (trace w2) = inputs (trace w_f))
       /\ (affirmative (answers w 1%nat) = false ->
           safe_execute self cmd op admin w = (Returned (false, out, err), w_f)))
  /\ (outcome = TimedOut \/ (exists msg, outcome = LaunchFailed msg) ->
      exists out err w2,
        safe_execute self cmd op admin w = (Returned (false, out, err), w2)
        /\ inputs (trace w2) = inputs (trace w) ++ [confirm_prompt]
        /\ fs w2 = f'
        /\ registry w2 = registry w
        /\ copies (trace w2) = copies (trace w1)).
Proof.
  intros E Hyes Hrun.
  destruct (create_outcome self op w _ _ E) as (f & t & -> & I & _).
  destruct (safe_execute_confirmed self cmd op admin w id f t E Hyes)
    as (tc & Ic & _ & Cc & Lc & ->).
  set (wc := set_answers (next_answers (answers w)) (upd f tc w)).
  rewrite guarded_execute_spec. unfold outcome_of.
  destruct (after_run_facts wc cmd admin) as (Ia & Ca & _ & La & Ra & Aa).
  assert (Hfs : fs (after_run wc cmd admin) = f').
  { unfold after_run, wc. cbn [os_name run_process fs upd set_fs set_trace set_answers] in *.
    rewrite Hrun. reflexivity. }
  change (os_name wc) with (os_name w). change (run_process wc) with (run_process w).
  change (fs wc) with f. cbn [fs upd set_fs set_trace] in Hrun. rewrite Hrun. cbn [fst].
  change (trace wc) with tc in *. change (registry wc) with (registry w) in *.
  cbn [trace upd set_trace set_fs] in *.
  split.
  - intros rc out err -> Hrc.
    destruct (report_failure self id rc out err (after_run wc cmd admin) Hrc)
      as (tf & If & _ & Cf & Lf & H). cbv zeta in H.
    rewrite Aa in H. change (answers wc 0%nat) with (answers w 1%nat) in H.
    eexists. split; [| split; [| split; [| split; [| split; [| split]]]]]; cycle 5.
    + intros Hy. rewrite Hy in H. destruct H as (b & w3 & evs & Er & T & _ & I3 & Es).
      exists b, w3. eexists. split; [exact Er |]. split; [exact Es |].
      cbn [fs registry trace set_trace]. repeat split.
      rewrite inputs_app, I3. simpl. apply app_nil_r.
    + intros Hn. rewrite Hn in H. exact H.
    + cbn [trace set_trace set_answers]. rewrite If, Ia, Ic, I, <- app_assoc. reflexivity.
    + cbn [fs set_trace set_answers]. exact Hfs.
    + cbn [registry set_trace set_answers]. exact Ra.
    + cbn [trace set_trace set_answers]. rewrite Cf, Ca, Cc. reflexivity.
    + cbn [trace set_trace set_answers]. rewrite Lf, La, Lc, <- app_assoc. reflexivity.
  - intros [-> | [msg ->]]; do 3 eexists; (split; [reflexivity |]);
      cbn [fs registry trace set_trace];
      rewrite inputs_app, copies_app, Ia, Ca, Ic, Cc, I; simpl; rewrite !app_nil_r;
      repeat split; assumption.
Qed.

Lemma rollback_offered_after_failed_exit_witness :
  exists w_f,
    inputs (trace w_f) = [confirm_prompt; rollback_prompt]
    /\ safe_execute Example.self "false" "probe" false Example.yes_then_no
       = (Returned (false, "", "boom"), w_f).
Proof.
  assert (H : exists id, fst (create_system_snapshot Example.self "probe" Example.yes_then_no)
                         = Returned id)
    by (eexists; vm_compute; reflexivity).
  destruct (create_system_snapshot Example.self "probe" Example.yes_then_no) as [r w1] eqn:E.
  destruct H as [id H]. simpl in H. subst r.
  destruct (proj1 (rollback_offered_after_failed_exit Example.self "false" "probe" false
              Example.yes_then_no id w1 (Exited 1 "" "boom") (fs w1) E eq_refl eq_refl)
              1 "" "boom" eq_refl ltac:(discriminate))
    as (w_f & I & _ & _ & _ & _ & _ & Hno).
  exists w_f. split; [exact I | exact (Hno eq_refl)].
Defined.

(** C2, as stated, fails on a timeout: the confirmed command runs into the
    timeout, the call reports the failure, and the only prompt ever shown is
    the confirmation; no rollback is offered. *)
Lemma timeout_offers_no_rollback :
  fst (safe_execute Example.self "sleep 1000" "nap" false Example.hanging)
  = Returned (false, "", "Command timed out")
  /\ inputs (trace (snd (safe_execute Example.self "sleep 1000" "nap" false Example.hanging)))
     = [confirm_prompt].
Proof. split; vm_compute; reflexivity. Qed.

(** ** The claims on [rollback_snapshot] *)

Lemma restore_file_failure d n o e w :
  original_location (home w) n = Some o ->
  FS.copy2 (fs w) (denied w) (d ++ [n]) o = Raised e ->
  restore_file (d ++ [n]) w
  = (Returned tt,
     set_trace ((trace w ++ [Copy2 (d ++ [n]) o])
                ++ [Log ERROR ("Failed to restore " +:+ Path.str o +:+ ": " +:+ exn_str e)]) w).
Proof.
  intros Ho Hc. unfold restore_file. rewrite name_snoc.
  destruct (Str.mem n _) eqn:Hskip;
    [apply (skipped_names_unmapped (home w)) in Hskip; congruence |].
  unfold bind at 1, asks. rewrite Ho.
  cbv beta iota delta [try_except any_exception bind copy2 emit fs_update log].
  cbn [fs denied trace set_trace]. rewrite Hc. reflexivity.
Qed.

(** C1. For a snapshot that exists, [rollback_snapshot] returns [false]
    exactly when the registry import fails (on Windows, an export is in the
    snapshot and the tool exits with a status other than 0), and [true]
    otherwise, whatever becomes of the file copies.  The import comes
    first: when it fails no file has been restored, files and registry are
    as before.  When it does not fail, every copy the snapshot calls for is
    attempted, in order; a copy that raises is logged as an error and the
    loop goes on. *)
Theorem rollback_fails_only_on_registry (self : SuperUserAssistant) (snapshot_id : string)
    (w : World) :
  let sdir := backup_dir self // snapshot_id in
  FS.exists_ (fs w) sdir = true ->
  (exists w',
     rollback_snapshot self snapshot_id w
     = (Returned (negb (registry_restore_fails w sdir)), w')
     /\ (registry_restore_fails w sdir = true ->
         fs w' = fs w /\ registry w' = registry w /\ copies (trace w') = copies (trace w))
     /\ (registry_restore_fails w sdir = false ->
         copies (trace w')
         = copies (trace w) ++ restore_plan (home w) sdir (snapshot_entries w sdir)))
  /\ (forall n o e w0,
        original_location (home w0) n = Some o ->
        FS.copy2 (fs w0) (denied w0) (sdir ++ [n]) o = Raised e ->
        exists w0',
          restore_file (sdir ++ [n]) w0 = (Returned tt, w0')
          /\ fs w0' = fs w0
          /\ logs (trace w0')
             = logs (trace w0)
               ++ [(ERROR, "Failed to restore " +:+ Path.str o +:+ ": " +:+ exn_str e)]).
Proof.
  intros sdir Hex. split.
  - destruct (rollback_snapshot_spec self snapshot_id w Hex) as (f & t & r & E & C & _ & Hf & _).
    fold sdir in E, C, Hf.
    eexists. split; [exact E |]. cbn [fs registry trace upd set_registry set_trace set_fs].
    split.
    + intros Hfails. rewrite Hfails in C. destruct (Hf Hfails) as [-> ->].
      rewrite C, app_nil_r. repeat split; reflexivity.
    + intros Hok. rewrite Hok in C. exact C.
  - intros n o e w0 Ho Hc. eexists. split; [apply restore_file_failure; eassumption |].
    cbn [fs trace set_trace]. split; [reflexivity |].
    rewrite !logs_app. simpl. rewrite app_nil_r. reflexivity.
Qed.

Lemma rollback_fails_only_on_registry_witness :
  exists w',
    rollback_snapshot Example.self "old_20240101_000000" Example.windows_reg_broken
    = (Returned false, w')
    /\ fs w' = fs Example.windows_reg_broken
    /\ copies (trace w') = [].
Proof.
  assert (Hex : FS.exists_ (fs Example.windows_reg_broken)
                  (backup_dir Example.self // "old_20240101_000000") = true)
    by (vm_compute; reflexivity).
  assert (Hfails : registry_restore_fails Example.windows_reg_broken
                     (backup_dir Example.self // "old_20240101_000000") = true)
    by (vm_compute; reflexivity).
  destruct (proj1 (rollback_fails_only_on_registry Example.self "old_20240101_000000"
                     Example.windows_reg_broken Hex))
    as (w' & E & Hbad & _).
  rewrite Hfails in E. destruct (Hbad Hfails) as (Hfs & _ & Hc).
  exists w'. split; [exact E |]. split; [exact Hfs | exact Hc].
Defined.

Lemma unmapped_name h n :
  n <> ".bashrc" -> n <> "config" -> n <> "hosts" -> original_location h n = None.
Proof.
  intros N1 N2 N3. destruct (original_location h n) as [o|] eqn:Ho; [| reflexivity].
  apply original_location_Some in Ho as [[? _] | [[? _] | [? _]]]; congruence.
Qed.

Lemma restore_plan_mapped h d names s o :
  In (s, o) (restore_plan h d names) ->
  exists n, In n names /\ s = d ++ [n] /\ original_location h n = Some o.
Proof.
  unfold restore_plan. induction names as [|n names IH]; simpl; [intros [] |].
  destruct (original_location h n) as [o'|] eqn:Ho.
  - intros [[= <- <-] | H].
    + exists n. auto.
    + destruct (IH H) as (n' & ? & ? & ?). exists n'. auto.
  - intros H. destruct (IH H) as (n' & ? & ? & ?). exists n'. auto.
Qed.

(** C4. In the rollback of an existing snapshot, a file whose name is none
    of [.bashrc], [config], [hosts] (nor [metadata.json],
    [registry_backup.reg]) is passed over without a trace: no copy, no log
    line, no change.  The rollback returns [true] unless the registry
    import fails; the copies it makes are those of the entries named
    [.bashrc], [config] and [hosts], to [~/.bashrc], [~/.ssh/config] and
    [/etc/hosts]; every path that is none of these destinations (nor the
    entry of that name inside one that is a directory) holds after the
    rollback what it held before. *)
Theorem unmapped_backups_are_skipped (self : SuperUserAssistant) (snapshot_id : string)
    (w : World) :
  let sdir := backup_dir self // snapshot_id in
  FS.exists_ (fs w) sdir = true ->
  (forall n w0,
     n <> "metadata.json" -> n <> "registry_backup.reg" ->
     n <> ".bashrc" -> n <> "config" -> n <> "hosts" ->
     restore_file (sdir ++ [n]) w0 = (Returned tt, w0))
  /\ exists w' restored,
       rollback_snapshot self snapshot_id w
       = (Returned (negb (registry_restore_fails w sdir)), w')
       /\ copies (trace w') = copies (trace w) ++ restored
       /\ (forall s o, In (s, o) restored ->
             exists n,
               In n (snapshot_entries w sdir) /\ s = sdir ++ [n]
               /\ ((n = ".bashrc" /\ o = home w ++ [".bashrc"])
                   \/ (n = "config" /\ o = home w ++ [".ssh"; "config"])
                   \/ (n = "hosts" /\ o = ["etc"; "hosts"])))
       /\ (forall p, not_a_restore_target (home w) p -> fs w' !! p = fs w !! p).
Proof.
  intros sdir Hex. split.
  - intros n w0 _ _ N1 N2 N3. apply restore_file_unmapped, unmapped_name; assumption.
  - destruct (rollback_snapshot_spec self snapshot_id w Hex) as (f & t & r & E & C & F & _).
    fold sdir in E, C.
    eexists. eexists. split; [exact E |].
    cbn [fs trace upd set_registry set_trace set_fs].
    split; [exact C |]. split; [| exact F].
    intros s o Hin. destruct (registry_restore_fails w sdir); [destruct Hin |].
    apply restore_plan_mapped in Hin as (n & Hn & -> & Ho).
    exists n. split; [exact Hn |]. split; [reflexivity |].
    apply original_location_Some, Ho.
Qed.

Lemma unmapped_backups_are_skipped_witness :
  exists w',
    rollback_snapshot Example.self "old_20240101_000000" Example.posix = (Returned true, w')
    /\ fs w' !! ["home"; "u"; "notes.txt"] = None
    /\ restore_file (Example.old_snapshot ++ ["notes.txt"]) Example.posix
       = (Returned tt, Example.posix).
Proof.
  assert (Hex : FS.exists_ (fs Example.posix)
                  (backup_dir Example.self // "old_20240101_000000") = true)
    by (vm_compute; reflexivity).
  destruct (unmapped_backups_are_skipped Example.self "old_20240101_000000" Example.posix Hex)
    as (Hskip & w' & restored & E & _ & _ & F).
  exists w'. split; [exact E |]. split.
  - rewrite F; [vm_compute; reflexivity |].
    intros n o Ho. apply original_location_Some in Ho as [[-> ->] | [[-> ->] | [-> ->]]];
      split; discriminate.
  - apply Hskip; discriminate.
Defined.

(** ** Rollback of a snapshot that is not there *)

(** C3. When nothing exists at the snapshot path under the backup root,
    [rollback_snapshot] returns [false]; all it does is log the error: the
    files and the registry are as before, no copy was attempted and no
    process (so no registry import) was started. *)
Theorem rollback_missing_snapshot (self : SuperUserAssistant) (snapshot_id : string) (w : World) :
  FS.exists_ (fs w) (backup_dir self // snapshot_id) = false ->
  exists w',
    rollback_snapshot self snapshot_id w = (Returned false, w')
    /\ w' = set_trace (trace w ++ [Log ERROR ("Snapshot not found: " +:+ snapshot_id)]) w
    /\ fs w' = fs w
    /\ registry w' = registry w
    /\ copies (trace w') = copies (trace w)
    /\ spawned (trace w') = spawned (trace w).
Proof.
  intros Hmissing.
  eexists. split.
  - apply rollback_missing_step, Hmissing.
  - repeat split; simpl.
    + rewrite copies_app. simpl. apply app_nil_r.
    + rewrite spawned_app. simpl. apply app_nil_r.
Qed.

Lemma rollback_missing_snapshot_witness :
  FS.exists_ (fs Example.posix) (backup_dir Example.self // "gone_20240101_000000") = false
  /\ exists w',
       rollback_snapshot Example.self "gone_20240101_000000" Example.posix = (Returned false, w')
       /\ fs w' = fs Example.posix.
Proof.
  assert (H : FS.exists_ (fs Example.posix)
                (backup_dir Example.self // "gone_20240101_000000") = false)
    by (vm_compute; reflexivity).
  split; [exact H |].
  destruct (rollback_missing_snapshot Example.self "gone_20240101_000000" Example.posix H)
    as (w' & Hr & _ & Hfs & _).
  exists w'. split; assumption.
Defined.

(** ** The claims on [create_system_snapshot] *)

Lemma mkdir_available w p :
  directory_available w p -> exists f, FS.mkdir_exist_ok (fs w) (denied w) p = Returned f.
Proof.
  unfold FS.mkdir_exist_ok, FS.parent_error.
  intros [H | (H & Hpar & Hden)]; rewrite H; [eauto |].
  rewrite Hpar. destruct (decide (p ∈ denied w)); [contradiction | eauto].
Qed.

Lemma write_succeeds fs den p c :
  FS.node_at fs p <> Some Dir -> FS.node_at fs (Path.parent p) = Some Dir -> p ∉ den ->
  FS.write fs den p c = Returned (<[p := File c]> fs).
Proof.
  intros Hn Hpar Hden. unfold FS.write, FS.parent_error. rewrite Hpar.
  destruct (FS.node_at fs p) as [[|?]|]; [contradiction | |];
    destruct (decide (p ∈ den)); try contradiction; reflexivity.
Qed.

Lemma snoc_neq (d : path) (n : string) : d ++ [n] <> d.
Proof.
  intros H. apply (f_equal (@length string)) in H. rewrite length_app in H. simpl in H. lia.
Qed.





(** ** Listing the snapshots *)

Lemma entry_name_Some d p n : FS.entry_name d p = Some n <-> p = d ++ [n].
Proof.
  unfold FS.entry_name. split.
  - destruct (drop (length d) p) as [|n' [|? ?]] eqn:Hdrop; try discriminate.
    destruct (decide (take (length d) p = d)) as [Htake|]; [| discriminate].
    intros [= <-]. rewrite <- (take_drop (length d) p), Htake, Hdrop. reflexivity.
  - intros ->. rewrite drop_app_length, take_app_length.
    destruct (decide (d = d)); [reflexivity | contradiction].
Qed.

Lemma children_spec (f : gmap path node) d n :
  In n (FS.children f d) <-> is_Some (f !! (d ++ [n])).
Proof.
  unfold FS.children. rewrite <- list_elem_of_In, list_elem_of_omap. split.
  - intros ([p v] & Hin & Hn). apply elem_of_map_to_list in Hin.
    apply entry_name_Some in Hn. simpl in Hn. subst p. eauto.
  - intros [v Hv]. exists (d ++ [n], v). split; [apply elem_of_map_to_list, Hv |].
    apply entry_name_Some. reflexivity.
Qed.


Lemma read_snapshots_spec dirs : forall acc w,
  exists t,
    read_snapshots dirs acc w = (Returned (acc ++ omap (metadata_of w) dirs), set_trace t w).
Proof.
  induction dirs as [|d dirs IH]; intros acc w; cbn [read_snapshots].
  - exists (trace w). cbn [omap list_omap]. rewrite app_nil_r. destruct w; reflexivity.
  - unfold bind at 1, is_dir, asks.
    match goal with |- exists t, bind ?m ?k w = _ =>
      assert (Hstep : exists t,
                m w = (Returned (acc ++ match metadata_of w d with
                                        | Some v => [v]
                                        | None => []
                                        end),
                       set_trace t w))
    end.
    { unfold metadata_of.
      cbv beta iota zeta delta [bind path_exists asks try_except any_exception
                                load_json log emit ret].
      change (d // "metadata.json") with (d ++ ["metadata.json"]).
      destruct (FS.is_dir (fs w) d).
      2:{ exists (trace w). rewrite app_nil_r. destruct w; reflexivity. }
      unfold FS.exists_, FS.read.
      destruct (FS.node_at (fs w) (d ++ ["metadata.json"])) as [[|c]|] eqn:Hn;
        rewrite ?Hn; cbn [rbind].
      - eexists. rewrite app_nil_r. reflexivity.
      - destruct (decide (d ++ ["metadata.json"] ∈ denied w)); cbn [rbind].
        + eexists. rewrite app_nil_r. reflexivity.
        + destruct (json_load c); [exists (trace w); destruct w; reflexivity |].
          eexists. rewrite app_nil_r. reflexivity.
      - exists (trace w). rewrite app_nil_r. destruct w; reflexivity. }
    destruct Hstep as [t1 E1].
    destruct (IH (acc ++ match metadata_of w d with Some v => [v] | None => [] end)
                (set_trace t1 w)) as [t2 E2].
    exists t2. erewrite bind_Returned by exact E1. rewrite E2.
    change (metadata_of (set_trace t1 w)) with (metadata_of w).
    change (set_trace t2 (set_trace t1 w)) with (set_trace t2 w).
    cbn [omap list_omap]. destruct (metadata_of w d); rewrite <- app_assoc; reflexivity.
Qed.

(** ** Sorting by timestamp *)






Lemma insert_desc_keyed x l l' :
  Permutation l' (x :: l) -> keyed x -> Forall keyed l -> Forall keyed l'.
Proof. intros P Hx Hl. rewrite P. constructor; assumption. Qed.




(** ** Operation names without a path separator *)










Lemma omap_map {A B C} (f : B -> option C) (g : A -> B) (l : list A) :
  omap f (map g l) = omap (fun x => f (g x)) l.
Proof.
  induction l as [|x l IH]; [reflexivity |]. cbn [map omap list_omap].
  change (list_omap B C f (map g l)) with (omap f (map g l)). rewrite IH. reflexivity.
Qed.

Lemma list_snapshots_spec self w :
  FS.is_dir (fs w) (backup_dir self) = true ->
  exists t,
    list_snapshots self w
    = (sorted_reverse (fun x => getitem x "timestamp") (readable_records self w),
       set_trace t w).
Proof.
  intros Hdir. unfold list_snapshots, iterdir, readable_records. unfold FS.is_dir in Hdir.
  unfold bind at 1.
  destruct (FS.node_at (fs w) (backup_dir self)) as [[|?]|]; try discriminate.
  destruct (read_snapshots_spec
              (map (fun n => backup_dir self ++ [n]) (FS.children (fs w) (backup_dir self)))
              [] w) as [t E].
  exists t. erewrite bind_Returned by exact E. unfold lift. cbn [app].
  rewrite omap_map. reflexivity.
Qed.





(** ** Responses that are not JSON *)

Lemma parse_undecodable {P} `{LLMProvider P} (self : LLMInterface P) (user_input : string)
    (w : World) :
  Json.loads (generate_response (provider self) (parse_prompt user_input)) = None ->
  parse_natural_language_command self user_input w
  = (Returned parse_error,
     set_trace (trace w ++ [Log ERROR ("Failed to parse LLM response: "
                  +:+ generate_response (provider self) (parse_prompt user_input))]) w).
Proof.
  intros Hbad.
  unfold parse_natural_language_command, try_except, bind, json_loads, lift, json_load.
  rewrite Hbad. reflexivity.
Qed.



(** ** Further properties: the confirmation answers *)

Lemma lower_char_is c (x : ascii) :
  (97 <= nat_of_ascii x <= 122)%nat ->
  Str.lower_char c = x -> c = x \/ c = ascii_of_nat (nat_of_ascii x - 32).
Proof.
  intros Hx <-. unfold Str.lower_char in *.
  destruct ((65 <=? nat_of_ascii c)%nat && (nat_of_ascii c <=? 90)%nat)%bool eqn:Hup.
  - right. apply andb_prop in Hup as [H1 H2].
    apply Nat.leb_le in H1, H2.
    rewrite nat_ascii_embedding by lia.
    replace (nat_of_ascii c + 32 - 32)%nat with (nat_of_ascii c) by lia.
    symmetry. apply ascii_nat_embedding.
  - left. reflexivity.
Qed.

Lemma lower_is_y a : Str.lower a = "y" -> a = "y" \/ a = "Y".
Proof.
  destruct a as [|c [|? ?]]; try discriminate. cbn [Str.lower]. intros [= H].
  apply lower_char_is in H as [-> | ->]; [auto | auto | vm_compute; lia].
Qed.

Lemma lower_is_yes a :
  Str.lower a = "yes" ->
  exists c1 c2 c3,
    a = String c1 (String c2 (String c3 EmptyString))
    /\ (c1 = "y" \/ c1 = "Y")%char /\ (c2 = "e" \/ c2 = "E")%char
    /\ (c3 = "s" \/ c3 = "S")%char.
Proof.
  destruct a as [|c1 [|c2 [|c3 [|? ?]]]]; try discriminate. cbn [Str.lower].
  intros [= H1 H2 H3]. exists c1, c2, c3. split; [reflexivity |].
  apply lower_char_is in H1; [| vm_compute; lia].
  apply lower_char_is in H2; [| vm_compute; lia].
  apply lower_char_is in H3; [| vm_compute; lia].
  auto.
Qed.

(** The answers that confirm a prompt of [safe_execute] are the case
    variants of [yes] and [y], written exactly so: ten strings.  Anything
    else, also an affirmative answer with a blank around it, declines. *)
Theorem affirmative_answers (a : string) :
  affirmative a = true <->
  In a ["yes"; "yeS"; "yEs"; "yES"; "Yes"; "YeS"; "YEs"; "YES"; "y"; "Y"].
Proof.
  split.
  - unfold affirmative, Str.mem. cbn [existsb]. rewrite orb_false_r.
    intros H. apply orb_prop in H as [H | H]; apply String.eqb_eq in H.
    + apply lower_is_yes in H as (c1 & c2 & c3 & -> & [-> | ->] & [-> | ->] & [-> | ->]);
        simpl; tauto.
    + apply lower_is_y in H as [-> | ->]; simpl; tauto.
  - intros H. simpl in H.
    repeat (destruct H as [<- | H]; [reflexivity |]). destruct H.
Qed.

(** ** Further properties: [safe_execute] as a whole *)

(** Once the snapshot is taken, [safe_execute] always returns its triple,
    whatever the operator answers and however the command ends: no exception
    leaves the [try] block.  The triple reports success exactly when the
    operator confirmed and the process exited with status 0. *)
Theorem safe_execute_returns (self : SuperUserAssistant) (cmd op : string) (admin : bool)
    (w : World) (id : string) (w1 : World) :
  create_system_snapshot self op w = (Returned id, w1) ->
  exists ok out err w2,
    safe_execute self cmd op admin w = (Returned (ok, out, err), w2)
    /\ (ok = true <->
        affirmative (answers w 0%nat) = true
        /\ exists o e,
             fst (run_process w (command_invocation (os_name w) cmd admin) (fs w1))
             = Exited 0 o e).
Proof.
  intros E. rewrite safe_execute_steps, E.
  destruct (create_outcome self op w _ _ E) as (f & t & -> & _).
  destruct (confirm_and_execute_asks self cmd op admin id (upd f t w)) as (tc & _ & _ & _ & _ & Ec).
  change (answers (upd f t w)) with (answers w) in Ec. rewrite Ec. clear Ec.
  destruct (affirmative (answers w 0%nat)).
  - rewrite guarded_execute_spec. unfold outcome_of.
    cbn [os_name run_process fs upd set_fs set_trace set_answers].
    destruct (fst (run_process w (command_invocation (os_name w) cmd admin) f))
      as [rc out err| |msg] eqn:Hout.
    + match goal with |- context [report_result self id (rc, out, err) ?x] =>
        destruct (report_result_returns self id rc out err x) as [w2 E2]
      end.
      exists (Z.eqb rc 0), out, err, w2. split; [exact E2 |]. split.
      * intros Hrc. apply Z.eqb_eq in Hrc. subst rc. split; [reflexivity | eauto].
      * intros (_ & o & e & [= -> _ _]). reflexivity.
    + do 4 eexists. split; [reflexivity |]. split; [discriminate |].
      intros (_ & o & e & [=]).
    + do 4 eexists. split; [reflexivity |]. split; [discriminate |].
      intros (_ & o & e & [=]).
  - do 4 eexists. split; [reflexivity |]. split; [discriminate | intros [[=] _]].
Qed.

Lemma safe_execute_returns_witness :
  exists ok out err w2,
    safe_execute Example.self "false" "probe" false Example.yes_then_no
    = (Returned (ok, out, err), w2).
Proof.
  assert (Hfst : fst (create_system_snapshot Example.self "probe" Example.yes_then_no)
                 = Returned "probe_20240309_140507") by (vm_compute; reflexivity).
  assert (E : create_system_snapshot Example.self "probe" Example.yes_then_no
              = (Returned "probe_20240309_140507",
                 snd (create_system_snapshot Example.self "probe" Example.yes_then_no)))
    by (rewrite <- Hfst; apply surjective_pairing).
  destruct (safe_execute_returns Example.self "false" "probe" false Example.yes_then_no _ _ E)
    as (ok & out & err & w2 & Es & _).
  exists ok, out, err, w2. exact Es.
Defined.

(** ** Further properties: [list_snapshots] *)

Lemma with_keys_fails l1 x l2 e :
  Forall (fun y => exists k, getitem y "timestamp" = Returned k) l1 ->
  getitem x "timestamp" = Raised e ->
  with_keys (fun y => getitem y "timestamp") (l1 ++ x :: l2) = Raised e.
Proof.
  intros H Hx. induction H as [|y l1 [k Hk] _ IH]; cbn [app with_keys].
  - rewrite Hx. reflexivity.
  - rewrite Hk, IH. reflexivity.
Qed.


(** The sort key is taken outside any [try]: when the records read from
    the backup root are [l1 ++ x :: l2], those of [l1] have a timestamp and
    [x] has none (the subscript raises [e]: [KeyError] for a dict without
    the key, [TypeError] for a value that is no dict), [list_snapshots]
    raises [e]; one such record hides all the others. *)
Theorem list_snapshots_missing_timestamp (self : SuperUserAssistant) (w : World)
    (l1 l2 : list json) (x : json) (e : exn) :
  FS.is_dir (fs w) (backup_dir self) = true ->
  readable_records self w = l1 ++ x :: l2 ->
  Forall (fun y => exists k, getitem y "timestamp" = Returned k) l1 ->
  getitem x "timestamp" = Raised e ->
  exists w', list_snapshots self w = (Raised e, w') /\ fs w' = fs w.
Proof.
  intros Hroot Hrec Hl1 Hx.
  destruct (list_snapshots_spec self w Hroot) as [t E].
  rewrite Hrec in E. unfold sorted_reverse in E.
  rewrite (with_keys_fails l1 x l2 e Hl1 Hx) in E. cbn [rbind] in E.
  eexists. split; [exact E | reflexivity].
Qed.

Lemma list_snapshots_missing_timestamp_witness :
  exists w',
    list_snapshots Example.self Example.tampered = (Raised (KeyError "timestamp"), w').
Proof.
  assert (Hrec : exists l2, readable_records Example.self Example.tampered
                            = [] ++ JDict [] :: l2)
    by (eexists; vm_compute; reflexivity).
  destruct Hrec as [l2 Hrec].
  destruct (list_snapshots_missing_timestamp Example.self Example.tampered [] l2 (JDict [])
              (KeyError "timestamp") ltac:(vm_compute; reflexivity) Hrec
              ltac:(constructor) eq_refl)
    as (w' & E & _).
  exists w'. exact E.
Defined.

(** ** Further properties: what a snapshot writes *)

Lemma touches_refl S w : touches S w w.
Proof. exists (fs w), (trace w). rewrite upd_id. auto. Qed.

Lemma touches_trans S w1 w2 w3 : touches S w1 w2 -> touches S w2 w3 -> touches S w1 w3.
Proof.
  intros (f1 & t1 & -> & H1) (f2 & t2 & -> & H2). exists f2, t2. split; [reflexivity |].
  intros p Hp. rewrite H2, H1 by assumption. reflexivity.
Qed.

Lemma touches_mono (S S' : path -> Prop) w w' :
  (forall p, S p -> S' p) -> touches S w w' -> touches S' w w'.
Proof.
  intros Hsub (f & t & -> & H). exists f, t. split; [reflexivity |].
  intros p Hp. apply H. intros HS. apply Hp, Hsub, HS.
Qed.

Lemma touches_emit S w e : touches S w (set_trace (trace w ++ [e]) w).
Proof. exists (fs w), (trace w ++ [e]). split; [destruct w; reflexivity | auto]. Qed.

Lemma touches_write S w p c f :
  FS.write (fs w) (denied w) p c = Returned f -> S p -> touches S w (set_fs f w).
Proof.
  intros Hw Hp. exists f, (trace w). split; [destruct w; reflexivity |].
  intros q Hq. eapply write_frame; [exact Hw |]. intros ->. contradiction.
Qed.

Lemma under_refl d : under d d.
Proof. exists []. symmetry. apply app_nil_r. Qed.

Lemma under_snoc d n k : under d ((d ++ [n]) ++ k).
Proof. exists (n :: k). rewrite <- app_assoc. reflexivity. Qed.

Lemma log_touches S lvl msg w : exists w', log lvl msg w = (Returned tt, w') /\ touches S w w'.
Proof. eexists. split; [reflexivity | apply touches_emit]. Qed.

(** A copy changes its target at most. *)
Lemma copy2_touches src dst w :
  exists r w',
    copy2 src dst w = (r, w')
    /\ touches (fun p => p = FS.copy_target (fs w) src dst) w w'.
Proof.
  unfold copy2, bind, emit, fs_update. cbn [fs denied set_trace].
  destruct (FS.copy2 (fs w) (denied w) src dst) as [f|e] eqn:Hc.
  - do 2 eexists. split; [reflexivity |].
    eapply touches_trans; [apply (touches_emit _ w (Copy2 src dst)) |].
    apply copy2_Returned in Hc as [c Hc].
    eapply (touches_write _ (set_trace _ w)); [exact Hc | reflexivity].
  - do 2 eexists. split; [reflexivity | apply touches_emit].
Qed.

Lemma backup_config_touches sdir cf n w :
  Path.name cf = n -> sdir // n = sdir ++ [n] ->
  exists w',
    backup_config sdir (Some cf) w = (Returned tt, w')
    /\ touches (fun p => p = sdir ++ [n] \/ p = (sdir ++ [n]) ++ [n]) w w'.
Proof.
  intros Hn Hj. unfold backup_config. rewrite Hn, Hj.
  unfold bind at 1, path_exists, asks.
  destruct (FS.exists_ (fs w) cf); [| exists w; split; [reflexivity | apply touches_refl]].
  unfold try_except, any_exception.
  destruct (copy2_touches cf (sdir ++ [n]) w) as (r & w1 & E1 & T1).
  assert (T1' : touches (fun p => p = sdir ++ [n] \/ p = (sdir ++ [n]) ++ [n]) w w1).
  { eapply touches_mono; [| exact T1]. cbn beta. intros p ->.
    unfold FS.copy_target. rewrite Hn. destruct (FS.is_dir (fs w) (sdir ++ [n])); auto. }
  destruct r as [[]|e].
  - erewrite bind_Returned by exact E1.
    eexists. split; [reflexivity |]. eapply touches_trans; [exact T1' | apply touches_emit].
  - erewrite bind_Raised by exact E1.
    eexists. split; [reflexivity |]. eapply touches_trans; [exact T1' | apply touches_emit].
Qed.

Lemma backup_registry_touches sdir w :
  exists w',
    backup_registry sdir w = (Returned tt, w')
    /\ touches (fun p => p = sdir ++ ["registry_backup.reg"]) w w'.
Proof.
  unfold backup_registry, bind at 1, asks.
  destruct (String.eqb (os_name w) "nt"); [| exists w; split; [reflexivity | apply touches_refl]].
  unfold try_except, reg_export, bind, emit. cbn [fs denied registry reg_status set_trace].
  set (args := ["reg"; "export"; "HKEY_CURRENT_USER"; _]).
  set (w0 := set_trace (trace w ++ [Subprocess (Argv args)]) w).
  assert (T0 : touches (fun p => p = sdir ++ ["registry_backup.reg"]) w w0)
    by apply touches_emit.
  destruct (Z.eqb (reg_status w args) 0).
  - change (sdir // "registry_backup.reg") with (sdir ++ ["registry_backup.reg"]).
    destruct (FS.write (fs w) (denied w) _ (registry w)) as [f|e] eqn:Hw.
    + eexists. split; [reflexivity |].
      eapply touches_trans; [exact T0 |].
      eapply touches_trans; [eapply (touches_write _ w0); [exact Hw | reflexivity] |].
      apply touches_emit.
    + eexists. split; [reflexivity |].
      eapply touches_trans; [exact T0 | apply touches_emit].
  - eexists. split; [reflexivity |].
    eapply touches_trans; [exact T0 | apply touches_emit].
Qed.

Lemma mkdir_touches p w :
  exists r w', mkdir_exist_ok p w = (r, w') /\ touches (fun q => q = p) w w'.
Proof.
  unfold mkdir_exist_ok, fs_update.
  destruct (FS.mkdir_exist_ok (fs w) (denied w) p) as [f|e] eqn:Hm.
  - do 2 eexists. split; [reflexivity |]. exists f, (trace w).
    split; [destruct w; reflexivity |].
    intros q Hq. apply mkdir_Returned in Hm as (_ & Hf & _). apply Hf. exact Hq.
  - do 2 eexists. split; [reflexivity | apply touches_refl].
Qed.

Lemma save_metadata_touches sdir id ts op w :
  exists r w',
    save_metadata sdir id ts op w = (r, w')
    /\ touches (fun p => p = sdir ++ ["metadata.json"]) w w'.
Proof.
  rewrite save_metadata_spec.
  destruct (FS.write (fs w) (denied w) _ _) as [f|e] eqn:Hw.
  - do 2 eexists. split; [reflexivity |]. eapply touches_write; [exact Hw | reflexivity].
  - do 2 eexists. split; [reflexivity | apply touches_refl].
Qed.

Lemma backup_configs_touches sdir w :
  exists w',
    backup_configs sdir w = (Returned tt, w')
    /\ touches (fun p => exists n, In n [".bashrc"; "config"; "hosts"]
                                   /\ (p = sdir ++ [n] \/ p = (sdir ++ [n]) ++ [n])) w w'.
Proof.
  unfold backup_configs.
  cbv beta iota zeta delta [bind asks path_exists for_each ret].
  set (S := fun p => exists n, _ /\ _).
  assert (Hstep : forall cf n w0, Path.name cf = n -> sdir // n = sdir ++ [n] ->
            In n [".bashrc"; "config"; "hosts"] ->
            exists w', backup_config sdir (Some cf) w0 = (Returned tt, w') /\ touches S w0 w').
  { intros cf n w0 Hn Hj Hin.
    destruct (backup_config_touches sdir cf n w0 Hn Hj) as (w' & E & T).
    exists w'. split; [exact E |]. eapply touches_mono; [| exact T].
    intros p Hp. exists n. auto. }
  destruct (Hstep (home w // ".bashrc") ".bashrc" w) as (w1 & E1 & T1);
    [apply name_snoc | reflexivity | simpl; auto |].
  destruct (Hstep (home w // ".ssh" // "config") "config" w1) as (w2 & E2 & T2);
    [apply name_snoc | reflexivity | simpl; auto |].
  rewrite E1, E2.
  destruct (FS.exists_ (fs w) etc_hosts).
  - destruct (Hstep etc_hosts "hosts" w2) as (w3 & E3 & T3);
      [reflexivity | reflexivity | simpl; auto |].
    rewrite E3.
    exists w3. split; [reflexivity |].
    eapply touches_trans; [exact T1 | eapply touches_trans; eassumption].
  - cbn [backup_config]. unfold ret.
    exists w2. split; [reflexivity | eapply touches_trans; eassumption].
Qed.

(** Taking a snapshot writes inside the snapshot directory only: whether
    [create_system_snapshot] returns or raises, every path that is not the
    snapshot directory or below it holds afterwards what it held before
    (the originals are read, never written), and the registry is as it
    was. *)
Theorem snapshot_writes_inside_its_directory (self : SuperUserAssistant) (op : string)
    (w : World) :
  exists r w',
    create_system_snapshot self op w = (r, w')
    /\ registry w' = registry w
    /\ forall p, ~ under (backup_dir self // snapshot_id_of w op) p -> fs w' !! p = fs w !! p.
Proof.
  unfold create_system_snapshot, snapshot_id_of.
  cbv beta iota zeta delta [bind asks].
  set (id := op +:+ "_" +:+ strftime (clock w)).
  set (sdir := backup_dir self // id).
  assert (Hall : forall w', touches (under sdir) w w' ->
            registry w' = registry w
            /\ forall p, ~ under sdir p -> fs w' !! p = fs w !! p).
  { intros w' (f & t & -> & H). split; [reflexivity | exact H]. }
  assert (Hsub1 : forall (n : string) w0 w0',
            touches (fun p => p = sdir ++ [n]) w0 w0' -> touches (under sdir) w0 w0').
  { intros n w0 w0'. apply touches_mono. intros p ->. exists [n]. reflexivity. }
  destruct (mkdir_touches sdir w) as (r0 & w0 & E0 & T0). rewrite E0.
  apply (touches_mono _ (under sdir)) in T0; [| intros p ->; apply under_refl].
  destruct r0 as [[]|e]; [| do 2 eexists; split; [reflexivity | apply Hall, T0]].
  destruct (log_touches (under sdir) INFO ("Creating system snapshot: " +:+ id) w0)
    as (wa & Ea & Ta). rewrite Ea.
  destruct (backup_registry_touches sdir wa) as (wb & Eb & Tb). rewrite Eb.
  apply Hsub1 in Tb.
  destruct (backup_configs_touches sdir wb) as (wc & Ec & Tc). rewrite Ec.
  apply (touches_mono _ (under sdir)) in Tc.
  2:{ intros p (n & _ & [-> | ->]); [exists [n] | exists [n; n]];
        rewrite <- ?app_assoc; reflexivity. }
  destruct (save_metadata_touches sdir id (strftime (clock w)) op wc) as (rd & wd & Ed & Td).
  rewrite Ed. apply Hsub1 in Td.
  assert (T : touches (under sdir) w wd).
  { eapply touches_trans; [exact T0 |]. eapply touches_trans; [exact Ta |].
    eapply touches_trans; [exact Tb |]. eapply touches_trans; eassumption. }
  destruct rd as [[]|e]; do 2 eexists; (split; [reflexivity |]).
  - apply Hall, T.
  - apply Hall, T.
Qed.

(** ** Further properties: the round trip of the shell profile *)

Lemma read_file fs den p c :
  FS.node_at fs p = Some (File c) -> p ∉ den -> FS.read fs den p = Returned c.
Proof.
  intros Hp Hden. unfold FS.read. rewrite Hp.
  destruct (decide (p ∈ den)); [contradiction | reflexivity].
Qed.

Lemma file_key (fs : gmap path node) p c :
  FS.node_at fs p = Some (File c) -> fs !! p = Some (File c).
Proof. destruct p; [discriminate | exact (fun H => H)]. Qed.

(** A copy of a readable file onto a path that is no directory, in a
    directory, and may be written: afterwards the path holds the content of
    the source (also when the two are the same file, which raises). *)
Lemma copy2_content fs den src dst c f :
  FS.node_at fs src = Some (File c) -> src ∉ den ->
  FS.node_at fs dst <> Some Dir ->
  FS.node_at fs (Path.parent dst) = Some Dir -> dst ∉ den ->
  f = match FS.copy2 fs den src dst with Returned f' => f' | Raised _ => fs end ->
  f !! dst = Some (File c).
Proof.
  intros Hsrc Hrd Hnd Hpar Hwr ->. unfold FS.copy2, FS.copy_target, FS.is_dir.
  destruct (FS.node_at fs dst) as [[|c']|] eqn:Hdst; [contradiction | |].
  all: destruct (bool_decide (src = dst)) eqn:Hsame; cbn [andb].
  all: try (apply bool_decide_eq_true in Hsame; subst dst; unfold FS.exists_;
            rewrite Hsrc; apply file_key, Hsrc).
  all: rewrite (read_file fs den src c Hsrc Hrd); cbn [rbind];
    rewrite write_succeeds by (rewrite ?Hdst; auto; discriminate);
    apply lookup_insert_eq.
Qed.

Lemma restore_file_mapped d n o w :
  original_location (home w) n = Some o ->
  exists t,
    restore_file (d ++ [n]) w
    = (Returned tt,
       upd (match FS.copy2 (fs w) (denied w) (d ++ [n]) o with
            | Returned f' => f'
            | Raised _ => fs w
            end) t w).
Proof.
  intros Ho. unfold restore_file. rewrite name_snoc.
  destruct (Str.mem n _) eqn:Hskip;
    [apply (skipped_names_unmapped (home w)) in Hskip; congruence |].
  unfold bind at 1, asks. rewrite Ho.
  cbv beta iota delta [try_except any_exception bind copy2 emit fs_update log].
  cbn [fs denied trace set_trace].
  destruct (FS.copy2 (fs w) (denied w) (d ++ [n]) o); eexists; reflexivity.
Qed.

Lemma copy2_frame fs den src dst f p :
  f = match FS.copy2 fs den src dst with Returned f' => f' | Raised _ => fs end ->
  p <> FS.copy_target fs src dst -> f !! p = fs !! p.
Proof.
  intros -> Hp. destruct (FS.copy2 fs den src dst) as [f'|] eqn:Hc; [| reflexivity].
  apply copy2_Returned in Hc as [c Hc]. eapply write_frame; eassumption.
Qed.

Lemma copy2_same_dirs fs den src dst f :
  f = match FS.copy2 fs den src dst with Returned f' => f' | Raised _ => fs end ->
  same_dirs fs f.
Proof.
  intros ->. destruct (FS.copy2 fs den src dst) as [f'|] eqn:Hc; [| apply same_dirs_refl].
  apply copy2_Returned in Hc as [c Hc]. eapply write_same_dirs, Hc.
Qed.

(** A copy never changes its own source. *)
Lemma copy2_keeps_source fs den src dst f c :
  FS.node_at fs src = Some (File c) ->
  f = match FS.copy2 fs den src dst with Returned f' => f' | Raised _ => fs end ->
  f !! src = fs !! src.
Proof.
  intros Hsrc Hf. destruct (decide (src = FS.copy_target fs src dst)) as [Hsame | Hne].
  - subst f. unfold FS.copy2. rewrite <- Hsame.
    rewrite bool_decide_eq_true_2 by reflexivity. unfold FS.exists_. rewrite Hsrc. reflexivity.
  - eapply copy2_frame; eassumption.
Qed.

Lemma last_neq (a b : path) (x y : string) : x <> y -> a ++ [x] <> b ++ [y].
Proof. intros Hxy H. apply app_inj_tail in H as [_ H]. contradiction. Qed.

(** No restore but the one of [.bashrc] writes to a path that ends in
    [.bashrc]. *)
Lemma restore_target_not_bashrc fs h d n o p :
  original_location h n = Some o -> n <> ".bashrc" ->
  p ++ [".bashrc"] <> FS.copy_target fs (d ++ [n]) o.
Proof.
  intros Ho Hn. apply original_location_Some in Ho.
  destruct (copy_target_cases fs d n o) as [-> | ->].
  - destruct Ho as [[-> _] | [[_ ->] | [_ ->]]]; [contradiction | |].
    + change (h ++ [".ssh"; "config"]) with (h ++ [".ssh"] ++ ["config"]).
      rewrite app_assoc. apply last_neq. discriminate.
    + change ["etc"; "hosts"] with (["etc"] ++ ["hosts"]). apply last_neq. discriminate.
  - apply last_neq. congruence.
Qed.

(** The loop of the rollback, followed for [.bashrc]: as long as the
    backup is readable and the profile can be written, the profile holds
    the backup once the entry [.bashrc] has been passed, and keeps it. *)
Lemma restore_loop_bashrc sdir c names : forall w,
  FS.node_at (fs w) (sdir ++ [".bashrc"]) = Some (File c) ->
  (sdir ++ [".bashrc"]) ∉ denied w ->
  FS.node_at (fs w) (home w) = Some Dir ->
  FS.node_at (fs w) (home w ++ [".bashrc"]) <> Some Dir ->
  (home w ++ [".bashrc"]) ∉ denied w ->
  fs w !! (home w ++ [".bashrc"]) = Some (File c) \/ In ".bashrc" names ->
  exists f t,
    for_each (map (fun n => sdir ++ [n]) names) restore_file w = (Returned tt, upd f t w)
    /\ f !! (home w ++ [".bashrc"]) = Some (File c).
Proof.
  induction names as [|n names IH]; intros w Hsrc Hrd Hhome Hnd Hwr Hgoal; cbn [map for_each].
  - destruct Hgoal as [Hdone | []]. exists (fs w), (trace w). rewrite upd_id. auto.
  - set (src := sdir ++ [".bashrc"]) in *. set (dst := home w ++ [".bashrc"]) in *.
    assert (Hstep : exists f1 t1,
              restore_file (sdir ++ [n]) w = (Returned tt, upd f1 t1 w)
              /\ f1 !! src = fs w !! src
              /\ same_dirs (fs w) f1
              /\ (f1 !! dst = Some (File c) \/ In ".bashrc" names)).
    { destruct (original_location (home w) n) as [o|] eqn:Ho.
      - destruct (restore_file_mapped sdir n o w Ho) as [t1 E1].
        eexists. exists t1. split; [exact E1 |].
        set (f1 := match FS.copy2 _ _ _ _ with Returned f' => f' | Raised _ => fs w end).
        split; [| split; [eapply copy2_same_dirs; reflexivity |]].
        + destruct (String.eqb_spec n ".bashrc") as [-> | Hn].
          * eapply copy2_keeps_source; [exact Hsrc | reflexivity].
          * eapply copy2_frame; [reflexivity |].
            eapply restore_target_not_bashrc; eassumption.
        + destruct (String.eqb_spec n ".bashrc") as [-> | Hn].
          * left. assert (o = dst) as ->.
            { apply original_location_Some in Ho.
              destruct Ho as [[_ ->] | [[H _] | [H _]]]; [reflexivity | discriminate H ..]. }
            eapply copy2_content; [exact Hsrc | exact Hrd | exact Hnd | | exact Hwr | reflexivity].
            unfold dst. rewrite parent_snoc. exact Hhome.
          * destruct Hgoal as [Hdone | [Heq | Hin]]; [left | congruence | right; exact Hin].
            rewrite <- Hdone. eapply copy2_frame; [reflexivity |].
            eapply restore_target_not_bashrc; eassumption.
      - rewrite restore_file_unmapped by exact Ho.
        exists (fs w), (trace w). rewrite upd_id. split; [reflexivity |].
        split; [reflexivity |]. split; [apply same_dirs_refl |].
        destruct Hgoal as [H | [-> | H]]; auto.
        exfalso. revert Ho. unfold original_location, Str.mem. cbn. discriminate. }
    destruct Hstep as (f1 & t1 & E1 & Hsrc1 & Hdirs & Hgoal1).
    erewrite bind_Returned by exact E1.
    assert (Hne : src <> []) by (unfold src; destruct sdir; discriminate).
    assert (Hne' : dst <> []) by (unfold dst; destruct (home w); discriminate).
    destruct (IH (upd f1 t1 w)) as (f & t & E & Hf).
    + change (fs (upd f1 t1 w)) with f1. fold src. rewrite node_at_key, Hsrc1 by exact Hne.
      rewrite <- node_at_key by exact Hne. exact Hsrc.
    + exact Hrd.
    + apply Hdirs, Hhome.
    + intros H. apply Hnd. apply Hdirs. exact H.
    + exact Hwr.
    + exact Hgoal1.
    + exists f, t. split; [exact E | exact Hf].
Qed.

Lemma rollback_bashrc_step (self : SuperUserAssistant) (id : string) (w : World)
    (c : content) :
  let sdir := backup_dir self // id in
  FS.is_dir (fs w) sdir = true ->
  registry_restore_fails w sdir = false ->
  fs w !! (sdir ++ [".bashrc"]) = Some (File c) ->
  (sdir ++ [".bashrc"]) ∉ denied w ->
  FS.node_at (fs w) (home w) = Some Dir ->
  FS.node_at (fs w) (home w ++ [".bashrc"]) <> Some Dir ->
  (home w ++ [".bashrc"]) ∉ denied w ->
  exists w',
    rollback_snapshot self id w = (Returned true, w')
    /\ fs w' !! (home w ++ [".bashrc"]) = Some (File c).
Proof.
  intros sdir Hdir Hreg Hsrc Hrd Hhome Hnd Hwr. unfold rollback_snapshot. fold sdir.
  assert (Hex : FS.exists_ (fs w) sdir = true).
  { unfold FS.exists_, FS.is_dir in *. destruct (FS.node_at (fs w) sdir); [reflexivity | discriminate]. }
  unfold bind at 1, path_exists, asks. rewrite Hex. simpl.
  unfold bind at 1, log, emit.
  set (w0 := set_trace (trace w ++ [Log INFO ("Rolling back to snapshot: " +:+ id)]) w).
  destruct (restore_registry_spec sdir w0) as (r & t1 & E1 & _).
  assert (Hfails : registry_restore_fails w0 sdir = false) by exact Hreg.
  rewrite Hfails in E1.
  erewrite bind_Returned by exact E1. cbn [negb].
  unfold bind at 1, glob_star, asks. cbn [fst snd fs set_registry set_trace w0].
  rewrite Hdir.
  destruct (restore_loop_bashrc sdir c (FS.children (fs w) sdir)
              (set_registry r (set_trace t1 w0)))
    as (f2 & t2 & E2 & Hf2).
  - rewrite node_at_key by (destruct sdir; discriminate). exact Hsrc.
  - exact Hrd.
  - exact Hhome.
  - exact Hnd.
  - exact Hwr.
  - right. apply children_spec. eauto.
  - erewrite bind_Returned by exact E2. eexists. split; [reflexivity | exact Hf2].
Qed.

(** Rolling back puts the saved shell profile back.  When the snapshot
    directory is a directory that holds a readable [.bashrc], the registry
    restore does not fail, and [~/.bashrc] can be written (the home directory
    is there, [~/.bashrc] is no directory and writing it is allowed), then
    [rollback_snapshot] returns [True] and [~/.bashrc] has the content of the
    backup, whatever it was before and whatever else the snapshot directory
    holds; no file other than the three originals (or an entry of the same
    name inside one that is a directory) is changed. *)
Theorem rollback_restores_bashrc (self : SuperUserAssistant) (id : string) (w : World)
    (c : content) :
  let sdir := backup_dir self // id in
  FS.is_dir (fs w) sdir = true ->
  registry_restore_fails w sdir = false ->
  fs w !! (sdir ++ [".bashrc"]) = Some (File c) ->
  (sdir ++ [".bashrc"]) ∉ denied w ->
  FS.node_at (fs w) (home w) = Some Dir ->
  FS.node_at (fs w) (home w ++ [".bashrc"]) <> Some Dir ->
  (home w ++ [".bashrc"]) ∉ denied w ->
  exists w',
    rollback_snapshot self id w = (Returned true, w')
    /\ fs w' !! (home w ++ [".bashrc"]) = Some (File c)
    /\ forall p, not_a_restore_target (home w) p -> fs w' !! p = fs w !! p.
Proof.
  intros sdir Hdir Hreg Hsrc Hrd Hhome Hnd Hwr.
  destruct (rollback_bashrc_step self id w c Hdir Hreg Hsrc Hrd Hhome Hnd Hwr)
    as (w' & E & Hc).
  assert (Hex : FS.exists_ (fs w) sdir = true).
  { unfold FS.exists_, FS.is_dir in *.
    destruct (FS.node_at (fs w) sdir); [reflexivity | discriminate]. }
  destruct (rollback_snapshot_spec self id w Hex) as (f & t & r & E' & _ & Hframe & _).
  exists w'. split; [exact E |]. split; [exact Hc |].
  rewrite E in E'. injection E' as _ ->. exact Hframe.
Qed.

Lemma rollback_restores_bashrc_witness :
  exists w',
    rollback_snapshot Example.self "old_20240101_000000" Example.posix = (Returned true, w')
    /\ fs w' !! ["home"; "u"; ".bashrc"] = Some (File (Text "alias l=ls"))
    /\ forall p, not_a_restore_target (home Example.posix) p ->
                 fs w' !! p = fs Example.posix !! p.
Proof.
  apply (rollback_restores_bashrc Example.self "old_20240101_000000" Example.posix
           (Text "alias l=ls")).
  - vm_compute. reflexivity.
  - vm_compute. reflexivity.
  - vm_compute. reflexivity.
  - apply not_elem_of_empty.
  - vm_compute. reflexivity.
  - vm_compute. discriminate.
  - apply not_elem_of_empty.
Defined.

Lemma touches_fs S w w' :
  touches S w w' ->
  (forall p, ~ S p -> fs w' !! p = fs w !! p)
  /\ denied w' = denied w /\ home w' = home w.
Proof. intros (f & t & -> & H). repeat split. exact H. Qed.

Lemma keeps_fs w w' : keeps w w' -> same_dirs (fs w) (fs w').
Proof. intros (f & t & -> & H & _). exact H. Qed.

Lemma backup_config_copies sdir cf w :
  FS.exists_ (fs w) cf = true ->
  exists t,
    backup_config sdir (Some cf) w
    = (Returned tt,
       upd (match FS.copy2 (fs w) (denied w) cf (sdir // Path.name cf) with
            | Returned f' => f'
            | Raised _ => fs w
            end) t w).
Proof.
  intros Hex. unfold backup_config.
  cbv beta iota delta [try_except any_exception bind copy2 emit fs_update log path_exists asks].
  rewrite Hex. cbn [fs denied trace set_trace].
  destruct (FS.copy2 (fs w) (denied w) cf (sdir // Path.name cf)); eexists; reflexivity.
Qed.

(** The copies of the snapshot, followed for [.bashrc]: with the snapshot
    directory in place, a readable profile is in the snapshot afterwards. *)
Lemma backup_configs_bashrc sdir c w :
  FS.node_at (fs w) (home w ++ [".bashrc"]) = Some (File c) ->
  (home w ++ [".bashrc"]) ∉ denied w ->
  FS.node_at (fs w) sdir = Some Dir ->
  FS.node_at (fs w) (sdir ++ [".bashrc"]) <> Some Dir ->
  (sdir ++ [".bashrc"]) ∉ denied w ->
  exists w',
    backup_configs sdir w = (Returned tt, w')
    /\ fs w' !! (sdir ++ [".bashrc"]) = Some (File c).
Proof.
  intros Hsrc Hrd Hdir Hnd Hwr. unfold backup_configs.
  cbv beta iota zeta delta [bind asks path_exists for_each ret].
  change (home w // ".bashrc") with (home w ++ [".bashrc"]).
  destruct (backup_config_copies sdir (home w ++ [".bashrc"]) w) as [t1 E1].
  { unfold FS.exists_. rewrite Hsrc. reflexivity. }
  rewrite name_snoc in E1. change (sdir // ".bashrc") with (sdir ++ [".bashrc"]) in E1.
  set (f1 := match FS.copy2 _ _ _ _ with Returned f' => f' | Raised _ => fs w end) in E1.
  assert (H1 : f1 !! (sdir ++ [".bashrc"]) = Some (File c)).
  { eapply copy2_content; [exact Hsrc | exact Hrd | exact Hnd | | exact Hwr | reflexivity].
    rewrite parent_snoc. exact Hdir. }
  rewrite E1.
  destruct (backup_config_touches sdir (home w // ".ssh" // "config") "config" (upd f1 t1 w))
    as (w2 & E2 & T2); [apply name_snoc | reflexivity |].
  change (home (upd f1 t1 w)) with (home w) in *.
  rewrite E2.
  apply touches_fs in T2 as (F2 & _ & _).
  assert (H2 : fs w2 !! (sdir ++ [".bashrc"]) = Some (File c)).
  { rewrite F2; [exact H1 |]. intros [H | H].
    - revert H. apply last_neq. discriminate.
    - revert H. apply last_neq. discriminate. }
  destruct (FS.exists_ (fs w) etc_hosts).
  - destruct (backup_config_touches sdir etc_hosts "hosts" w2) as (w3 & E3 & T3);
      [reflexivity | reflexivity |].
    rewrite E3. exists w3. split; [reflexivity |].
    apply touches_fs in T3 as (F3 & _ & _).
    rewrite F3; [exact H2 |]. intros [H | H].
    + revert H. apply last_neq. discriminate.
    + revert H. apply last_neq. discriminate.
  - cbn [backup_config]. unfold ret. exists w2. split; [reflexivity | exact H2].
Qed.

Lemma create_copies_bashrc (self : SuperUserAssistant) (op : string) (w : World)
    (id : string) (w1 : World) (c : content) :
  create_system_snapshot self op w = (Returned id, w1) ->
  fs w !! (home w ++ [".bashrc"]) = Some (File c) ->
  (home w ++ [".bashrc"]) ∉ denied w ->
  FS.node_at (fs w) ((backup_dir self // id) ++ [".bashrc"]) <> Some Dir ->
  ((backup_dir self // id) ++ [".bashrc"]) ∉ denied w ->
  fs w1 !! ((backup_dir self // id) ++ [".bashrc"]) = Some (File c).
Proof.
  intros E Hsrc Hrd Hnd Hwr.
  assert (Hid : id = snapshot_id_of w op).
  { destruct (create_outcome self op w _ _ E) as (f & t & _ & _ & _ & Hpost).
    apply (Hpost id eq_refl). }
  subst id. revert E.
  unfold create_system_snapshot. fold (snapshot_id_of w op).
  cbv beta iota zeta delta [bind asks].
  change (op +:+ "_" +:+ strftime (clock w)) with (snapshot_id_of w op).
  set (id := snapshot_id_of w op) in *.
  set (sdir := backup_dir self // id) in *.
  set (hb := home w ++ [".bashrc"]) in *. set (sb := sdir ++ [".bashrc"]) in *.
  assert (Hhb : hb <> []) by (unfold hb; destruct (home w); discriminate).
  assert (Hsb : sb <> []) by (unfold sb; destruct sdir; discriminate).
  unfold mkdir_exist_ok at 1, fs_update.
  destruct (FS.mkdir_exist_ok (fs w) (denied w) sdir) as [f1|e] eqn:Hm; [| discriminate].
  pose proof (mkdir_Returned _ _ _ _ Hm) as (Hd1 & Hf1 & _ & Hback).
  assert (Hsrc1 : f1 !! hb = Some (File c)).
  { rewrite Hf1; [exact Hsrc |]. intros Heq. rewrite <- Heq in Hm.
    unfold FS.mkdir_exist_ok in Hm. rewrite node_at_key, Hsrc in Hm by exact Hhb.
    discriminate. }
  assert (Hnd1 : FS.node_at f1 sb <> Some Dir).
  { intros H. apply Hnd, Hback; [apply snoc_neq | exact H]. }
  set (w0 := set_fs f1 w).
  destruct (log_keeps INFO ("Creating system snapshot: " +:+ id) w0) as (wa & Ea & Ka).
  rewrite Ea.
  assert (Hwa : fs wa = f1 /\ denied wa = denied w /\ home wa = home w).
  { injection Ea as <-. repeat split. }
  destruct Hwa as (Hfa & Hda & Hha).
  destruct (backup_registry_touches sdir wa) as (wb & Eb & Tb).
  destruct (backup_registry_keeps sdir wa) as (wb' & Eb' & Kb).
  assert (wb' = wb) as -> by congruence.
  rewrite Eb.
  apply touches_fs in Tb as (Fb & Hdb & Hhomeb). apply keeps_fs in Kb.
  rewrite Hfa in Fb, Kb. rewrite Hda in Hdb. rewrite Hha in Hhomeb.
  destruct (backup_configs_bashrc sdir c wb) as (wc & Ec & Hc).
  - rewrite Hhomeb. fold hb. rewrite node_at_key by exact Hhb.
    rewrite Fb; [exact Hsrc1 |]. apply last_neq. discriminate.
  - rewrite Hhomeb, Hdb. exact Hrd.
  - apply Kb, Hd1.
  - intros H. apply Hnd1, Kb, H.
  - rewrite Hdb. exact Hwr.
  - rewrite Ec.
    destruct (save_metadata_touches sdir id (strftime (clock w)) op wc) as (rd & wd & Ed & Td).
    rewrite Ed. apply touches_fs in Td as (Fd & _ & _).
    destruct rd as [[]|e]; [| discriminate]. intros [= <-].
    rewrite Fd; [exact Hc |]. apply last_neq. discriminate.
Qed.

(** A snapshot holds the shell profile.  When [create_system_snapshot]
    returns and [~/.bashrc] was a readable file, with nothing in the way of
    its copy (no directory of that name in the snapshot directory, and the
    copy may be written), then the snapshot directory is a directory that
    holds a [.bashrc] with the content [~/.bashrc] had at the call, next to
    the record of the snapshot. *)
Theorem snapshot_holds_bashrc (self : SuperUserAssistant) (op : string) (w : World)
    (id : string) (w1 : World) (c : content) :
  create_system_snapshot self op w = (Returned id, w1) ->
  fs w !! (home w ++ [".bashrc"]) = Some (File c) ->
  (home w ++ [".bashrc"]) ∉ denied w ->
  FS.node_at (fs w) ((backup_dir self // id) ++ [".bashrc"]) <> Some Dir ->
  ((backup_dir self // id) ++ [".bashrc"]) ∉ denied w ->
  FS.is_dir (fs w1) (backup_dir self // id) = true
  /\ fs w1 !! ((backup_dir self // id) ++ [".bashrc"]) = Some (File c)
  /\ fs w1 !! ((backup_dir self // id) ++ ["metadata.json"])
     = Some (File (JsonDoc (metadata_for w op))).
Proof.
  intros E Hsrc Hrd Hnd Hwr.
  pose proof (create_copies_bashrc self op w id w1 c E Hsrc Hrd Hnd Hwr) as Hc.
  destruct (create_outcome self op w _ _ E) as (f & t & -> & _ & _ & Hpost).
  destruct (Hpost id eq_refl) as (_ & Hdir & Hmeta & _).
  split; [exact Hdir |]. split; [exact Hc | exact Hmeta].
Qed.

Lemma snapshot_holds_bashrc_witness :
  fs (snd (create_system_snapshot Example.self "probe" Example.posix))
    !! ((backup_dir Example.self // "probe_20240309_140507") ++ [".bashrc"])
  = Some (File (Text "alias ll=ls")).
Proof.
  assert (Hfst : fst (create_system_snapshot Example.self "probe" Example.posix)
                 = Returned "probe_20240309_140507") by (vm_compute; reflexivity).
  assert (E : create_system_snapshot Example.self "probe" Example.posix
              = (Returned "probe_20240309_140507",
                 snd (create_system_snapshot Example.self "probe" Example.posix)))
    by (rewrite <- Hfst; apply surjective_pairing).
  apply (snapshot_holds_bashrc Example.self "probe" Example.posix _ _
           (Text "alias ll=ls") E).
  - vm_compute. reflexivity.
  - apply not_elem_of_empty.
  - vm_compute. discriminate.
  - apply not_elem_of_empty.
Defined.

(** A failed command is undone.  [safe_execute] is called when [~/.bashrc]
    is a readable file that can be copied into the snapshot; the snapshot is
    made, the operator confirms, the command runs and exits with a status
    other than zero, and the operator accepts the rollback.  Whatever the
    command did to [~/.bashrc] (changed it, removed it), as long as it left
    the backup in the snapshot directory alone, the home directory in place
    and no directory where [~/.bashrc] was, and the registry restore does not
    fail: [safe_execute] returns [(False, stdout, stderr)] and [~/.bashrc]
    has again the content it had when [safe_execute] was called. *)
Theorem failed_command_is_undone (self : SuperUserAssistant) (cmd op : string)
    (admin : bool) (w : World) (id : string) (w1 : World) (c : content)
    (rc : Z) (out err : string) (f' : gmap path node) :
  let sdir := backup_dir self // id in
  create_system_snapshot self op w = (Returned id, w1) ->
  fs w !! (home w ++ [".bashrc"]) = Some (File c) ->
  (home w ++ [".bashrc"]) ∉ denied w ->
  FS.node_at (fs w) (sdir ++ [".bashrc"]) <> Some Dir ->
  (sdir ++ [".bashrc"]) ∉ denied w ->
  affirmative (answers w 0%nat) = true ->
  affirmative (answers w 1%nat) = true ->
  run_process w (command_invocation (os_name w) cmd admin) (fs w1)
  = (Exited rc out err, f') ->
  rc <> 0 ->
  f' !! (sdir ++ [".bashrc"]) = fs w1 !! (sdir ++ [".bashrc"]) ->
  FS.is_dir f' sdir = true ->
  FS.node_at f' (home w) = Some Dir ->
  FS.node_at f' (home w ++ [".bashrc"]) <> Some Dir ->
  registry_restore_fails (set_fs f' w) sdir = false ->
  exists w2,
    safe_execute self cmd op admin w = (Returned (false, out, err), w2)
    /\ fs w2 !! (home w ++ [".bashrc"]) = Some (File c).
Proof.
  intros sdir E Hsrc Hrd Hnd Hwr Hyes Hyes' Hrun Hrc Hkept Hdir Hhome Hnd' Hreg.
  pose proof (create_copies_bashrc self op w id w1 c E Hsrc Hrd Hnd Hwr) as Hc.
  destruct (create_outcome self op w _ _ E) as (f & t & -> & _ & _ & _).
  destruct (safe_execute_confirmed self cmd op admin w id f t E Hyes)
    as (tc & _ & _ & _ & _ & Es).
  rewrite Es, guarded_execute_spec.
  set (wc := set_answers (next_answers (answers w)) (upd f tc w)).
  change (fs (upd f t w)) with f in *.
  assert (Ho : outcome_of wc cmd admin = Exited rc out err).
  { unfold outcome_of. change (run_process wc) with (run_process w).
    change (os_name wc) with (os_name w). change (fs wc) with f. rewrite Hrun. reflexivity. }
  rewrite Ho.
  assert (Hfs : fs (after_run wc cmd admin) = f').
  { unfold after_run. change (run_process wc) with (run_process w).
    change (os_name wc) with (os_name w).
    change (fs (set_fs ?x _)) with x. change (fs wc) with f. rewrite Hrun. reflexivity. }
  destruct (report_failure self id rc out err (after_run wc cmd admin) Hrc)
    as (tf & _ & _ & _ & _ & Hreport).
  change (answers (after_run wc cmd admin) 0%nat) with (answers w 1%nat) in Hreport.
  rewrite Hyes' in Hreport.
  destruct Hreport as (b & w3 & evs & Er & _ & _ & _ & Ereport).
  set (w_f := set_answers (next_answers (answers (after_run wc cmd admin)))
                (set_trace tf (after_run wc cmd admin))) in *.
  assert (Hfs_f : fs w_f = f') by exact Hfs.
  destruct (rollback_bashrc_step self id w_f c) as (w' & Er' & Hc').
  - rewrite Hfs_f. exact Hdir.
  - unfold registry_restore_fails in *. change (os_name w_f) with (os_name w).
    change (reg_status w_f) with (reg_status w). rewrite Hfs_f. exact Hreg.
  - rewrite Hfs_f. fold sdir. rewrite Hkept. exact Hc.
  - exact Hwr.
  - rewrite Hfs_f. exact Hhome.
  - rewrite Hfs_f. exact Hnd'.
  - exact Hrd.
  - rewrite Er in Er'. injection Er' as -> ->.
    rewrite Ereport. eexists. split; [reflexivity | exact Hc'].
Qed.

Lemma failed_command_is_undone_witness :
  exists w2,
    safe_execute Example.self "rm ~/.bashrc; false" "probe" false Example.clobbered
    = (Returned (false, "", "boom"), w2)
    /\ fs w2 !! ["home"; "u"; ".bashrc"] = Some (File (Text "alias ll=ls")).
Proof.
  assert (Hfst : fst (create_system_snapshot Example.self "probe" Example.clobbered)
                 = Returned "probe_20240309_140507") by (vm_compute; reflexivity).
  assert (E : create_system_snapshot Example.self "probe" Example.clobbered
              = (Returned "probe_20240309_140507",
                 snd (create_system_snapshot Example.self "probe" Example.clobbered)))
    by (rewrite <- Hfst; apply surjective_pairing).
  apply (failed_command_is_undone Example.self "rm ~/.bashrc; false" "probe" false
           Example.clobbered _ _ (Text "alias ll=ls") 1 "" "boom"
           (delete ["home"; "u"; ".bashrc"]
              (fs (snd (create_system_snapshot Example.self "probe" Example.clobbered))))
           E).
  - vm_compute. reflexivity.
  - apply not_elem_of_empty.
  - vm_compute. discriminate.
  - apply not_elem_of_empty.
  - vm_compute. reflexivity.
  - vm_compute. reflexivity.
  - reflexivity.
  - discriminate.
  - vm_compute. reflexivity.
  - vm_compute. reflexivity.
  - vm_compute. reflexivity.
  - vm_compute. discriminate.
  - vm_compute. reflexivity.
Defined.

(** ** Further properties: the command line *)

Lemma mem_In x l : Str.mem x l = true <-> In x l.
Proof.
  unfold Str.mem. rewrite existsb_exists. split.
  - intros (y & Hy & E). apply String.eqb_eq in E. subst y. exact Hy.
  - intros H. exists x. split; [exact H | apply String.eqb_refl].
Qed.

Lemma index_of_Some x l i :
  index_of x l = Some i <->
  exists pre post, l = pre ++ x :: post /\ ~ In x pre /\ length pre = i.
Proof.
  revert i. induction l as [|y l IH]; intros i; cbn [index_of].
  - split; [discriminate | intros (pre & post & H & _)]. destruct pre; discriminate.
  - destruct (String.eqb_spec x y) as [<- | Hxy].
    + split.
      * intros [= <-]. exists [], l. repeat split. intros [].
      * intros (pre & post & H & Hpre & <-). destruct pre as [|z pre]; [reflexivity |].
        injection H as <- _. exfalso. apply Hpre. left. reflexivity.
    + destruct (index_of x l) as [j|] eqn:Hj.
      * split.
        -- intros [= <-]. destruct (proj1 (IH j) eq_refl) as (pre & post & -> & Hpre & <-).
           exists (y :: pre), post. repeat split. intros [H | H]; [congruence | contradiction].
        -- intros (pre & post & H & Hpre & <-). destruct pre as [|z pre].
           ++ injection H as H _. congruence.
           ++ injection H as <- ->. f_equal.
              assert (Hj' : Some j = Some (length pre)).
              { apply IH. exists pre, post. repeat split. intros Hin. apply Hpre. right. exact Hin. }
              injection Hj' as ->. reflexivity.
      * split; [discriminate |].
        intros (pre & post & H & Hpre & <-). destruct pre as [|z pre].
        -- injection H as H _. congruence.
        -- injection H as <- ->. exfalso.
           assert (Hj' : None = Some (length pre)); [| discriminate].
           apply IH. exists pre, post. repeat split. intros Hin. apply Hpre. right. exact Hin.
Qed.

(** The value of a flag is the argument right after its first occurrence,
    whatever it looks like (another flag is taken as the value); a flag
    that only occurs as the last argument has none. *)
Theorem flag_value_spec (argv : list string) (flag v : string) :
  flag_value argv flag = Some v <->
  exists pre post, argv = pre ++ flag :: v :: post /\ ~ In flag pre.
Proof.
  unfold flag_value. split.
  - destruct (Str.mem flag argv); [| discriminate].
    destruct (index_of flag argv) as [i|] eqn:Hi; [| discriminate].
    apply index_of_Some in Hi as (pre & post & -> & Hpre & <-).
    destruct (length pre + 1 <? length (pre ++ flag :: post))%nat; [| discriminate].
    replace (length pre + 1)%nat with (length pre + 1 + 0)%nat by lia.
    rewrite <- Nat.add_assoc.
    rewrite nth_error_app2 by lia.
    replace (length pre + (1 + 0) - length pre)%nat with 1%nat by lia.
    destruct post as [|v' post]; [discriminate |]. intros [= ->]. eauto.
  - intros (pre & post & -> & Hpre).
    assert (Hmem : Str.mem flag (pre ++ flag :: v :: post) = true).
    { apply mem_In, in_or_app. right. left. reflexivity. }
    rewrite Hmem.
    assert (Hi : index_of flag (pre ++ flag :: v :: post) = Some (length pre)).
    { apply index_of_Some. exists pre, (v :: post). auto. }
    rewrite Hi.
    assert (Hlt : (length pre + 1 <? length (pre ++ flag :: v :: post))%nat = true).
    { apply Nat.ltb_lt. rewrite length_app. simpl. lia. }
    rewrite Hlt. rewrite nth_error_app2 by lia.
    replace (length pre + 1 - length pre)%nat with 1%nat by lia. reflexivity.
Qed.

Lemma says_refl w : says w w.
Proof. exists []. rewrite app_nil_r. split; [destruct w; reflexivity | reflexivity]. Qed.

Lemma says_trans w1 w2 w3 : says w1 w2 -> says w2 w3 -> says w1 w3.
Proof.
  intros (e1 & -> & H1) (e2 & -> & H2). exists (e1 ++ e2). split.
  - cbn [trace set_trace]. rewrite app_assoc. reflexivity.
  - rewrite forallb_app, H1, H2. reflexivity.
Qed.

Lemma says_facts w w' :
  says w w' ->
  fs w' = fs w /\ registry w' = registry w /\ answers w' = answers w
  /\ inputs (trace w') = inputs (trace w)
  /\ spawned (trace w') = spawned (trace w)
  /\ copies (trace w') = copies (trace w).
Proof.
  intros (evs & -> & Hq). cbn [fs registry answers trace set_trace].
  rewrite inputs_app, spawned_app, copies_app.
  assert (H : inputs evs = [] /\ spawned evs = [] /\ copies evs = []).
  { induction evs as [|e evs IH]; [repeat split |].
    cbn [forallb] in Hq. apply andb_prop in Hq as [He Hq].
    destruct (IH Hq) as (I & S & C). destruct e; try discriminate; repeat split; assumption. }
  destruct H as (-> & -> & ->). rewrite !app_nil_r. repeat split.
Qed.

Lemma speaks_ret {A} (a : A) : speaks (ret a).
Proof. intros w. do 2 eexists. split; [reflexivity | apply says_refl]. Qed.

Lemma speaks_lift {A} (r : result A) : speaks (lift r).
Proof. intros w. do 2 eexists. split; [reflexivity | apply says_refl]. Qed.

Lemma speaks_asks {A} (f : World -> A) : speaks (asks f).
Proof. intros w. do 2 eexists. split; [reflexivity | apply says_refl]. Qed.

Lemma speaks_log lvl msg : speaks (log lvl msg).
Proof. intros w. do 2 eexists. split; [reflexivity |]. exists [Log lvl msg]. auto. Qed.

Lemma speaks_print text : speaks (print text).
Proof. intros w. do 2 eexists. split; [reflexivity |]. exists [Print text]. auto. Qed.

Lemma speaks_bind {A B} (m : M A) (k : A -> M B) :
  speaks m -> (forall a, speaks (k a)) -> speaks (bind m k).
Proof.
  intros Hm Hk w. destruct (Hm w) as (r & w1 & E1 & S1). unfold bind. rewrite E1.
  destruct r as [a|e].
  - destruct (Hk a w1) as (r2 & w2 & E2 & S2). rewrite E2.
    do 2 eexists. split; [reflexivity | eapply says_trans; eassumption].
  - do 2 eexists. split; [reflexivity | exact S1].
Qed.

Lemma speaks_try_except {A} (m : M A) (h : exn -> option (M A)) :
  speaks m -> (forall e k, h e = Some k -> speaks k) -> speaks (try_except m h).
Proof.
  intros Hm Hh w. destruct (Hm w) as (r & w1 & E1 & S1). unfold try_except. rewrite E1.
  destruct r as [a|e]; [do 2 eexists; split; [reflexivity | exact S1] |].
  destruct (h e) as [k|] eqn:Hk; [| do 2 eexists; split; [reflexivity | exact S1]].
  destruct (Hh e k Hk w1) as (r2 & w2 & E2 & S2). rewrite E2.
  do 2 eexists. split; [reflexivity | eapply says_trans; eassumption].
Qed.

Lemma speaks_for_each {A} (l : list A) (body : A -> M unit) :
  (forall x, speaks (body x)) -> speaks (for_each l body).
Proof.
  intros Hb. induction l as [|x l IH]; cbn [for_each]; [apply speaks_ret |].
  apply speaks_bind; [apply Hb | intros _; exact IH].
Qed.

Lemma speaks_read_snapshots dirs : forall acc, speaks (read_snapshots dirs acc).
Proof.
  induction dirs as [|d dirs IH]; intros acc; cbn [read_snapshots]; [apply speaks_ret |].
  apply speaks_bind; [apply speaks_asks | intros b].
  apply speaks_bind; [| intros acc'; apply IH].
  destruct b; [| apply speaks_ret].
  apply speaks_bind; [apply speaks_asks | intros present].
  destruct present; [| apply speaks_ret].
  apply speaks_try_except.
  - apply speaks_bind; [| intros; apply speaks_ret].
    intros w. do 2 eexists. split; [reflexivity | apply says_refl].
  - intros e k [= <-]. apply speaks_bind; [apply speaks_log | intros; apply speaks_ret].
Qed.

Lemma speaks_list_snapshots self : speaks (list_snapshots self).
Proof.
  unfold list_snapshots. apply speaks_bind.
  - intros w. unfold iterdir.
    destruct (FS.node_at (fs w) (backup_dir self)) as [[|?]|];
      do 2 eexists; (split; [reflexivity | apply says_refl]).
  - intros dirs. apply speaks_bind; [apply speaks_read_snapshots | intros; apply speaks_lift].
Qed.

Lemma speaks_print_snapshot x : speaks (print_snapshot x).
Proof.
  unfold print_snapshot.
  repeat (apply speaks_bind; [apply speaks_lift | intros ?]). apply speaks_print.
Qed.

Lemma speaks_print_usage : speaks print_usage.
Proof. unfold print_usage. repeat (apply speaks_bind; [apply speaks_print | intros _]). apply speaks_print. Qed.

(** [main] up to the dispatch: the assistant is made and the banner
    printed. *)
Lemma main_after_init argv w a w0 :
  init w = (Returned a, w0) ->
  exists wb, says w0 wb /\ main argv w = dispatch a argv wb.
Proof.
  intros Hinit. unfold main. erewrite bind_Returned by exact Hinit.
  cbv beta iota zeta delta [bind print emit].
  eexists. split; [| reflexivity].
  eapply says_trans; [| eexists [_]; split; reflexivity].
  eexists [_]; split; reflexivity.
Qed.

(** Asking for the list wins over everything else.  With [--snapshots]
    anywhere on the command line, [main] only logs and prints, whether it
    returns or raises: once the assistant is made, no file and no registry
    entry is changed, nothing is asked, no process is started and nothing is
    copied, whatever [--command] or [--rollback] the line also holds. *)
Theorem main_listing_takes_precedence (argv : list string) (w : World)
    (a : SuperUserAssistant) (w0 : World) :
  init w = (Returned a, w0) ->
  Str.mem "--snapshots" argv = true ->
  exists r w',
    main argv w = (r, w')
    /\ fs w' = fs w0 /\ registry w' = registry w0 /\ answers w' = answers w0
    /\ inputs (trace w') = inputs (trace w0)
    /\ spawned (trace w') = spawned (trace w0)
    /\ copies (trace w') = copies (trace w0).
Proof.
  intros Hinit Hflag.
  destruct (main_after_init argv w a w0 Hinit) as (wb & Sb & ->).
  unfold dispatch. rewrite Hflag.
  assert (Hk : speaks (if (length argv <? 2)%nat then print_usage
                       else (snapshots <- list_snapshots a ;;
                             print (Str.nl +:+ "📸 Available snapshots ("
                                    +:+ Str.of_Z (Z.of_nat (length snapshots)) +:+ "):") ;;
                             for_each snapshots print_snapshot)%py)).
  { destruct (length argv <? 2)%nat; [apply speaks_print_usage |].
    apply speaks_bind; [apply speaks_list_snapshots | intros l].
    apply speaks_bind; [apply speaks_print | intros _].
    apply speaks_for_each, speaks_print_snapshot. }
  destruct (Hk wb) as (r & w' & E & S).
  exists r, w'. split; [exact E |]. apply says_facts. eapply says_trans; eassumption.
Qed.

Lemma main_listing_takes_precedence_witness :
  exists r w',
    main ["superuser.py"; "--command"; "rm -rf /"; "--snapshots"] Example.posix = (r, w')
    /\ spawned (trace w') = spawned (trace (snd (init Example.posix))).
Proof.
  destruct (main_listing_takes_precedence
              ["superuser.py"; "--command"; "rm -rf /"; "--snapshots"] Example.posix
              Example.self (snd (init Example.posix)))
    as (r & w' & E & _ & _ & _ & _ & S & _).
  - assert (Hfst : fst (init Example.posix) = Returned Example.self)
      by (vm_compute; reflexivity).
    rewrite <- Hfst. apply surjective_pairing.
  - reflexivity.
  - exists r, w'. split; [exact E | exact S].
Defined.

(** A flag without its value does nothing.  Without [--snapshots], when
    [--rollback] is the last argument, or when there is no [--rollback] and
    [--command] is missing, last, or followed by an empty string, [main]
    returns having only logged and printed: no snapshot is taken, nothing is
    rolled back, nothing is run. *)
Theorem main_without_value_does_nothing (argv : list string) (w : World)
    (a : SuperUserAssistant) (w0 : World) :
  init w = (Returned a, w0) ->
  Str.mem "--snapshots" argv = false ->
  flag_value argv "--rollback" = None ->
  Str.mem "--rollback" argv = true
  \/ flag_value argv "--command" = None
  \/ flag_value argv "--command" = Some "" ->
  exists w',
    main argv w = (Returned tt, w')
    /\ fs w' = fs w0 /\ registry w' = registry w0 /\ answers w' = answers w0
    /\ inputs (trace w') = inputs (trace w0)
    /\ spawned (trace w') = spawned (trace w0)
    /\ copies (trace w') = copies (trace w0).
Proof.
  intros Hinit Hlist Hroll Hcase.
  destruct (main_after_init argv w a w0 Hinit) as (wb & Sb & ->).
  unfold dispatch. rewrite Hlist, Hroll.
  assert (Hk : exists w', (if (length argv <? 2)%nat then print_usage
                       else if Str.mem "--rollback" argv then ret tt
                       else match flag_value argv "--command" with
                            | Some c =>
                                if Str.truthy c then
                                  (safe_execute a c
                                     (match flag_value argv "--operation" with
                                      | Some o => o
                                      | None => "manual_command"
                                      end) (Str.mem "--admin" argv) ;; ret tt)%py
                                else print "❌ No command specified"
                            | None => print "❌ No command specified"
                            end) wb = (Returned tt, w') /\ says wb w').
  { destruct (length argv <? 2)%nat.
    - eexists. split; [reflexivity |].
      destruct (speaks_print_usage wb) as (r & w' & E & S).
      unfold print_usage, bind, print, emit in *. injection E as _ <-. exact S.
    - destruct Hcase as [-> | [-> | ->]].
      + eexists. split; [reflexivity | apply says_refl].
      + destruct (Str.mem "--rollback" argv);
          (eexists; split; [reflexivity |]); [apply says_refl | eexists [_]; split; reflexivity].
      + destruct (Str.mem "--rollback" argv);
          (eexists; split; [reflexivity |]); [apply says_refl | eexists [_]; split; reflexivity]. }
  destruct Hk as (w' & E & S).
  exists w'. split; [exact E |]. apply says_facts. eapply says_trans; eassumption.
Qed.

Lemma main_without_value_does_nothing_witness :
  exists w',
    main ["superuser.py"; "--admin"; "--rollback"] Example.posix = (Returned tt, w')
    /\ copies (trace w') = copies (trace (snd (init Example.posix))).
Proof.
  destruct (main_without_value_does_nothing
              ["superuser.py"; "--admin"; "--rollback"] Example.posix
              Example.self (snd (init Example.posix)))
    as (w' & E & _ & _ & _ & _ & _ & C).
  - assert (Hfst : fst (init Example.posix) = Returned Example.self)
      by (vm_compute; reflexivity).
    rewrite <- Hfst. apply surjective_pairing.
  - reflexivity.
  - reflexivity.
  - left. reflexivity.
  - exists w'. split; [exact E | exact C].
Defined.

(** ** Further properties: the execution plan and the factory *)

Lemma plan_undecodable {P} `{LLMProvider P} json_dumps (self : LLMInterface P) command w :
  Json.loads (generate_response (provider self) (plan_prompt json_dumps command)) = None ->
  generate_execution_plan json_dumps self command w
  = (Returned (JList []),
     set_trace (trace w ++ [Log ERROR ("Failed to parse execution plan: "
                                        +:+ generate_response (provider self)
                                              (plan_prompt json_dumps command))]) w).
Proof.
  intros Hbad. unfold generate_execution_plan, try_except, bind, json_loads, lift, json_load.
  rewrite Hbad. reflexivity.
Qed.


(** The factory builds an interface for the provider type [openai] when
    an API key that is not empty comes with it, and for [local]; for
    anything else, also for another spelling of these two, it raises
    [ValueError]. *)
Theorem factory_accepts (provider_type : string) (kwargs : gmap string string) :
  (exists i, create_llm_interface provider_type kwargs = Created i)
  <-> (provider_type = "openai"
       /\ exists key, kwargs !! "api_key" = Some key /\ key <> "")
      \/ provider_type = "local".
Proof.
  unfold create_llm_interface.
  destruct (String.eqb_spec provider_type "openai") as [-> | Ho].
  - destruct (kwargs !! "api_key") as [key|] eqn:Hk.
    + unfold Str.truthy. destruct (String.eqb_spec key "") as [-> | Hne]; cbn [negb].
      * split; [intros [i [=]] | intros [(_ & k & [= <-] & Hk') | [=]]; congruence].
      * split; [intros _; left; eauto | eauto].
    + split; [intros [i [=]] | intros [(_ & k & [=] & _) | [=]]].
  - destruct (String.eqb_spec provider_type "local") as [-> | Hl].
    + split; [auto | eauto].
    + split; [intros [i [=]] | intros [[? _] | ?]; contradiction].
Qed.

(** Every interface the factory can build is a mock.  It finds every
    command safe, with no risk named; it parses no request (the result is
    the error record); and it plans nothing (the plan is empty). *)
Theorem factory_interfaces_are_mocks (provider_type : string) (kwargs : gmap string string)
    (i : LLMInterface Provider) :
  create_llm_interface provider_type kwargs = Created i ->
  (forall command,
     getitem (validate_safety i command) "safe" = Returned (JBool true)
     /\ getitem (validate_safety i command) "risks" = Returned (JList []))
  /\ (forall user_input w,
        exists w', parse_natural_language_command i user_input w = (Returned parse_error, w'))
  /\ (forall json_dumps command w,
        exists w',
          generate_execution_plan json_dumps i command w = (Returned (JList []), w')).
Proof.
  intros Hi.
  assert (Hp : (exists p, provider i = OpenAI p) \/ (exists p, provider i = Local p)).
  { unfold create_llm_interface in Hi.
    destruct (String.eqb provider_type "openai").
    - destruct (kwargs !! "api_key") as [key|]; [| discriminate].
      destruct (Str.truthy key); [| discriminate]. injection Hi as <-. left. eauto.
    - destruct (String.eqb provider_type "local"); [| discriminate].
      injection Hi as <-. right. eauto. }
  split; [| split].
  - intros command. unfold validate_safety.
    destruct Hp as [[p ->] | [p ->]]; split; reflexivity.
  - intros user_input w. eexists. apply parse_undecodable.
    destruct Hp as [[p ->] | [p ->]]; reflexivity.
  - intros json_dumps command w. eexists. apply plan_undecodable.
    destruct Hp as [[p ->] | [p ->]]; reflexivity.
Qed.

Lemma factory_interfaces_are_mocks_witness :
  exists i,
    create_llm_interface "local" ∅ = Created i
    /\ getitem (validate_safety i "rm -rf /") "safe" = Returned (JBool true).
Proof.
  eexists. split; [reflexivity |].
  apply (factory_interfaces_are_mocks "local" ∅ _ eq_refl).
Defined.

(** ** Further properties: time stamps sort by time *)

Lemma digit_compare x y :
  Ascii.compare (Str.digit x) (Str.digit y) = Nat.compare (x mod 10) (y mod 10).
Proof.
  unfold Str.digit.
  pose proof (Nat.mod_upper_bound x 10 ltac:(lia)) as Hx.
  pose proof (Nat.mod_upper_bound y 10 ltac:(lia)) as Hy.
  destruct (x mod 10)%nat as [|[|[|[|[|[|[|[|[|[|k]]]]]]]]]]; try lia;
    destruct (y mod 10)%nat as [|[|[|[|[|[|[|[|[|[|k']]]]]]]]]]; try lia; reflexivity.
Qed.

Lemma pad2_compare a b s t :
  (a < 100)%nat -> (b < 100)%nat ->
  String.compare (Str.pad2 a +:+ s) (Str.pad2 b +:+ t)
  = match Nat.compare a b with
    | Eq => String.compare s t
    | c => c
    end.
Proof.
  intros Ha Hb.
  change (Str.pad2 a +:+ s) with (String (Str.digit (a / 10)) (String (Str.digit a) s)).
  change (Str.pad2 b +:+ t) with (String (Str.digit (b / 10)) (String (Str.digit b) t)).
  cbn [String.compare]. rewrite !digit_compare.
  pose proof (Nat.div_mod_eq a 10) as Ea. pose proof (Nat.div_mod_eq b 10) as Eb.
  pose proof (Nat.mod_upper_bound a 10 ltac:(lia)) as Ha0.
  pose proof (Nat.mod_upper_bound b 10 ltac:(lia)) as Hb0.
  assert (Ha1 : (a / 10 < 10)%nat) by (apply Nat.Div0.div_lt_upper_bound; lia).
  assert (Hb1 : (b / 10 < 10)%nat) by (apply Nat.Div0.div_lt_upper_bound; lia).
  rewrite (Nat.mod_small (a / 10) 10 Ha1), (Nat.mod_small (b / 10) 10 Hb1).
  destruct (Nat.compare_spec (a / 10) (b / 10)) as [E1 | L1 | G1].
  - destruct (Nat.compare_spec (a mod 10) (b mod 10)) as [E0 | L0 | G0].
    + assert (a = b) as -> by lia. rewrite Nat.compare_refl. reflexivity.
    + assert (H : (a < b)%nat) by lia. apply Nat.compare_lt_iff in H. rewrite H. reflexivity.
    + assert (H : (b < a)%nat) by lia. apply Nat.compare_gt_iff in H. rewrite H. reflexivity.
  - assert (H : (a < b)%nat) by lia. apply Nat.compare_lt_iff in H. rewrite H. reflexivity.
  - assert (H : (b < a)%nat) by lia. apply Nat.compare_gt_iff in H. rewrite H. reflexivity.
Qed.

Lemma digit_mod x y : (x mod 10 = y mod 10)%nat -> Str.digit x = Str.digit y.
Proof. unfold Str.digit. intros ->. reflexivity. Qed.

Lemma pad4_split n s :
  Str.pad4 n +:+ s = Str.pad2 (n / 100) +:+ (Str.pad2 (n mod 100) +:+ s).
Proof.
  change (Str.pad4 n +:+ s)
    with (String (Str.digit (n / 1000)) (String (Str.digit (n / 100))
            (String (Str.digit (n / 10)) (String (Str.digit n) s)))).
  change (Str.pad2 (n / 100) +:+ (Str.pad2 (n mod 100) +:+ s))
    with (String (Str.digit (n / 100 / 10)) (String (Str.digit (n / 100))
            (String (Str.digit (n mod 100 / 10)) (String (Str.digit (n mod 100)) s)))).
  rewrite Nat.Div0.div_div. change (100 * 10)%nat with 1000%nat.
  pose proof (Nat.div_mod_eq n 100) as E.
  pose proof (Nat.div_mod_eq n 10) as E10.
  pose proof (Nat.div_mod_eq (n mod 100) 10) as E'.
  pose proof (Nat.mod_upper_bound n 10 ltac:(lia)) as B10.
  pose proof (Nat.mod_upper_bound (n mod 100) 10 ltac:(lia)) as B'.
  assert (H0 : ((n mod 100) mod 10 = n mod 10)%nat).
  { apply (Nat.mod_unique n 10 (10 * (n / 100) + n mod 100 / 10)); lia. }
  assert (H1 : ((n mod 100 / 10) mod 10 = (n / 10) mod 10)%nat).
  { assert (Hq : (n / 10 = 10 * (n / 100) + n mod 100 / 10)%nat).
    { symmetry. apply (Nat.div_unique n 10 _ ((n mod 100) mod 10)); lia. }
    rewrite Hq. rewrite Nat.add_comm, Nat.mul_comm, Nat.Div0.mod_add. reflexivity. }
  rewrite (digit_mod (n mod 100 / 10) (n / 10) H1), (digit_mod (n mod 100) n H0).
  reflexivity.
Qed.

Lemma pad4_compare a b s t :
  (a < 100 * 100)%nat -> (b < 100 * 100)%nat ->
  String.compare (Str.pad4 a +:+ s) (Str.pad4 b +:+ t)
  = match Nat.compare a b with
    | Eq => String.compare s t
    | c => c
    end.
Proof.
  intros Ha Hb. rewrite !pad4_split.
  pose proof (Nat.div_mod_eq a 100) as Ea. pose proof (Nat.div_mod_eq b 100) as Eb.
  pose proof (Nat.mod_upper_bound a 100 ltac:(lia)) as Ha0.
  pose proof (Nat.mod_upper_bound b 100 ltac:(lia)) as Hb0.
  assert (Ha1 : (a / 100 < 100)%nat) by (apply Nat.Div0.div_lt_upper_bound; lia).
  assert (Hb1 : (b / 100 < 100)%nat) by (apply Nat.Div0.div_lt_upper_bound; lia).
  rewrite pad2_compare by assumption. rewrite pad2_compare by assumption.
  destruct (Nat.compare_spec (a / 100) (b / 100)) as [E1 | L1 | G1].
  - destruct (Nat.compare_spec (a mod 100) (b mod 100)) as [E0 | L0 | G0].
    + assert (a = b) as -> by lia. rewrite Nat.compare_refl. reflexivity.
    + assert (H : (a < b)%nat) by lia. apply Nat.compare_lt_iff in H. rewrite H. reflexivity.
    + assert (H : (b < a)%nat) by lia. apply Nat.compare_gt_iff in H. rewrite H. reflexivity.
  - assert (H : (a < b)%nat) by lia. apply Nat.compare_lt_iff in H. rewrite H. reflexivity.
  - assert (H : (b < a)%nat) by lia. apply Nat.compare_gt_iff in H. rewrite H. reflexivity.
Qed.

(** The format [%Y%m%d_%H%M%S] makes the order of the strings the order
    of time: for two time stamps whose fields fit their widths (a year of at
    most four digits), comparing the strings gives what comparing year,
    month, day, hour, minute and second in this order gives.  This is what
    makes the sort of [list_snapshots], which is by the [timestamp] string,
    a sort by time. *)
Theorem timestamps_sort_by_time (a b : datetime) :
  four_and_two_digits a -> four_and_two_digits b ->
  String.compare (strftime a) (strftime b) = chronological a b.
Proof.
  intros (Ya & Ma & Da & Ha & Mia & Sa) (Yb & Mb & Db & Hb & Mib & Sb).
  unfold strftime, chronological, fields. cbn [lex].
  rewrite pad4_compare by assumption.
  rewrite pad2_compare by assumption. rewrite pad2_compare by assumption.
  change ("_" +:+ ?x) with (String "_" x). cbn [String.compare].
  change (Ascii.compare "_" "_") with Eq. cbv iota.
  rewrite pad2_compare by assumption. rewrite pad2_compare by assumption.
  change (Str.pad2 (second a)) with (Str.pad2 (second a) +:+ "").
  change (Str.pad2 (second b)) with (Str.pad2 (second b) +:+ "").
  rewrite pad2_compare by assumption. cbn [String.compare].
  reflexivity.
Qed.

Lemma timestamps_sort_by_time_witness :
  String.compare (strftime Example.at_9_march)
    (strftime {| year := 2024; month := 11; day := 2; hour := 0; minute := 0; second := 0 |})
  = Lt.
Proof.
  rewrite timestamps_sort_by_time; [reflexivity | |]; unfold four_and_two_digits; simpl; lia.
Defined.

(** ** Further properties: snapshot ids *)

Lemma create_returns self op w :
  let sdir := backup_dir self // snapshot_id_of w op in
  directory_available w sdir ->
  FS.node_at (fs w) (sdir ++ ["metadata.json"]) <> Some Dir ->
  (sdir ++ ["metadata.json"]) ∉ denied w ->
  exists w', create_system_snapshot self op w = (Returned (snapshot_id_of w op), w').
Proof.
  intros sdir Hdir Hmeta Hden.
  destruct (mkdir_available w sdir Hdir) as [f1 Hmk].
  pose proof (create_system_snapshot_steps self op w) as S. cbv zeta in S. fold sdir in S.
  rewrite Hmk in S. destruct S as (w1 & K & S).
  destruct K as (f & t & -> & Hd & _).
  cbn [fs upd set_fs set_trace] in *.
  apply mkdir_Returned in Hmk as (Hsd & _ & _ & Hback).
  rewrite write_succeeds in S.
  - eexists. exact S.
  - intros Hm. apply Hmeta, Hback; [apply snoc_neq |]. apply Hd, Hm.
  - rewrite parent_snoc. apply Hd, Hsd.
  - exact Hden.
Qed.

(** Snapshot ids are not unique.  The id is the operation name and the
    time to the second, and the directory is made with [exist_ok=True]: a
    second snapshot of the same operation within the same second (the clock
    of the world stands still between two calls) returns the same id as the
    first, and writes into the directory of the first, whose record it
    replaces. *)
Theorem snapshot_id_is_reused (self : SuperUserAssistant) (op : string) (w : World)
    (id : string) (w1 : World) :
  create_system_snapshot self op w = (Returned id, w1) ->
  exists w2,
    create_system_snapshot self op w1 = (Returned id, w2)
    /\ fs w2 !! ((backup_dir self // id) ++ ["metadata.json"])
       = Some (File (JsonDoc (metadata_for w1 op))).
Proof.
  intros E.
  destruct (create_outcome self op w _ _ E) as (f & t & -> & _ & _ & Hpost).
  destruct (Hpost id eq_refl) as (-> & Hdir & Hmeta & Hden).
  set (w1 := upd f t w) in *.
  assert (Hid : snapshot_id_of w1 op = snapshot_id_of w op) by reflexivity.
  destruct (create_returns self op w1) as [w2 E2].
  - left. rewrite Hid. unfold FS.is_dir in Hdir. cbn [fs w1 upd set_fs set_trace].
    destruct (FS.node_at f (backup_dir self // snapshot_id_of w op)) as [[|?]|];
      [reflexivity | discriminate ..].
  - rewrite Hid. cbn [fs w1 upd set_fs set_trace].
    rewrite node_at_key by (destruct (backup_dir self // snapshot_id_of w op); discriminate).
    rewrite Hmeta. discriminate.
  - rewrite Hid. exact Hden.
  - rewrite Hid in E2. exists w2. split; [exact E2 |].
    destruct (create_outcome self op w1 _ _ E2) as (f2 & t2 & -> & _ & _ & Hpost2).
    destruct (Hpost2 _ eq_refl) as (_ & _ & Hmeta2 & _). exact Hmeta2.
Qed.

Lemma snapshot_id_is_reused_witness :
  exists w2,
    create_system_snapshot Example.self "probe"
      (snd (create_system_snapshot Example.self "probe" Example.posix))
    = (Returned "probe_20240309_140507", w2).
Proof.
  assert (Hfst : fst (create_system_snapshot Example.self "probe" Example.posix)
                 = Returned "probe_20240309_140507") by (vm_compute; reflexivity).
  assert (E : create_system_snapshot Example.self "probe" Example.posix
              = (Returned "probe_20240309_140507",
                 snd (create_system_snapshot Example.self "probe" Example.posix)))
    by (rewrite <- Hfst; apply surjective_pairing).
  destruct (snapshot_id_is_reused Example.self "probe" Example.posix _ _ E) as (w2 & E2 & _).
  exists w2. exact E2.
Defined.
